(** * The shopping-list client: list hook, items service, realtime registry

    A shallow embedding of

    - [src/types/models.ts] and [src/types/database.ts] (module [Models]),
    - [src/services/supabase/realtime.ts] (module [RealtimeService]),
    - [src/services/supabase/items.ts] (module [ItemsService]),
    - [src/hooks/useList.ts] (module [useList]),
    - the validation, sanitization and logging utilities, and the handlers of
      [ListScreen.tsx] and [DraggableList.tsx],

    followed by the properties of the reconciliation layer.

    The hook's asynchronous callbacks are embedded as programs of a small
    free monad whose effects are the React state setters, the
    [isPerformingOperation] ref, [setTimeout] and the awaited calls of
    [ItemsService]; running a program yields the trace of the calls issued,
    each with the hook state at that moment, and the final state. A program
    runs against its outside: the answers of the service and what happens to
    the hook while a call is awaited. [run_amid] takes all of it (change-feed
    events, the timers of earlier callbacks clearing the shared flag, other
    callbacks); [run] is the callback on its own, with change-feed events
    only. *)

From Stdlib Require Import ZArith Lia.
From Stdlib Require Import Sorting.Sorted Sorting.Permutation.
From stdpp Require Import base option list strings gmap fin_maps.

Open Scope string_scope.
Open Scope list_scope.

(** ** JavaScript helpers *)

(** [s || undefined] for [s : string | null | undefined]: the empty string is
    falsy. *)
Definition or_undefined (s : option string) : option string :=
  match s with
  | Some v => if String.eqb v "" then None else Some v
  | None => None
  end.

(** [a || b] on possibly-missing strings. *)
Definition or_else (a b : option string) : option string :=
  match or_undefined a with
  | Some v => Some v
  | None => b
  end.

(** [!s] for a string. *)
Definition falsy (s : string) : bool := String.eqb s "".

(** [arr.map((x, index) => f(x, index))]. *)
Fixpoint map_index_from {A B : Type} (f : A -> nat -> B) (i : nat) (l : list A) : list B :=
  match l with
  | [] => []
  | x :: l' => f x i :: map_index_from f (S i) l'
  end.

Definition map_index {A B : Type} (f : A -> nat -> B) (l : list A) : list B :=
  map_index_from f 0 l.

(** ** Data model *)

Module Models.

(** An [Error] object, identified by its message. *)
Definition Error := string.

(** The joined [profiles:created_by (display_name, email)] columns. *)
Record ProfileRef := mkProfileRef {
  display_name : option string;
  email : option string;
}.

(** A row of the [items] table as the hook reads it
    ([Database['public']['Tables']['items']['Row']], plus the joined
    [profiles] and the [deleted_at] and [quantity] the hook maps). *)
Record DbItem := mkDbItem {
  db_id : string;
  list_id : string;
  db_text : string;
  is_bought : bool;
  is_deleted : bool;
  order_index : Z;
  created_by : option string;
  created_at : string;
  updated_at : string;
  db_version : Z;
  deleted_at : option string;
  db_notes : option string;
  db_quantity : option string;
  is_important : bool;
  profiles : option ProfileRef;
}.

(** [interface Item] of [models.ts]. *)
Record Item := mkItem {
  id : string;
  listId : string;
  text : string;
  isBought : bool;
  orderIndex : Z;
  version : Z;
  createdAt : string;
  updatedAt : string;
  deletedAt : option string;
  quantity : option string;
  notes : option string;
  createdBy : option string;
  createdByName : option string;
}.

End Models.
Export Models.

(** ** realtime.ts *)

Module RealtimeService.

Inductive ItemChangeType := INSERT | UPDATE | DELETE.

(** [interface ItemChange]; [old] is never read by the hook. *)
Record ItemChange := mkItemChange {
  type : ItemChangeType;
  item : DbItem;
  old : option DbItem;
}.

(** A [RealtimeChannel] object of the supabase client: its topic and the
    identity of the object. *)
Record RealtimeChannel := mkChannel {
  topic : string;
  channel_ref : nat;
}.

#[export] Instance RealtimeChannel_eq_dec : EqDecision RealtimeChannel.
Proof. solve_decision. Defined.

(** The static [channels] map together with the part of the supabase client
    it drives: the channels the client currently holds open and the supply
    of fresh channel objects. *)
Record Registry := mkRegistry {
  channels : gmap string RealtimeChannel;
  open_channels : list RealtimeChannel;
  next_ref : nat;
}.

Definition empty_registry : Registry :=
  {| channels := ∅; open_channels := []; next_ref := 0 |}.

(** [supabase.channel(`list-items-${listId}`).on(...).subscribe(...)]. *)
Definition new_channel (listId : string) (r : Registry) : RealtimeChannel :=
  {| topic := String.append "list-items-" listId; channel_ref := next_ref r |}.

(** [supabase.removeChannel(channel)]. *)
Definition removeChannel (c : RealtimeChannel) (l : list RealtimeChannel) : list RealtimeChannel :=
  filter (λ c', c' ≠ c) l.

(** [subscribeToListItems(listId, onChange)]: the registry afterwards and the
    channel returned. *)
Definition subscribeToListItems (listId : string) (r : Registry) : Registry * RealtimeChannel :=
  match channels r !! listId with
  | Some existingChannel => (r, existingChannel)
  | None =>
      let channel := new_channel listId r in
      ({| channels := <[listId := channel]> (channels r);
          open_channels := open_channels r ++ [channel];
          next_ref := S (next_ref r) |},
       channel)
  end.

(** [unsubscribeFromListItems(listId)]. *)
Definition unsubscribeFromListItems (listId : string) (r : Registry) : Registry :=
  match channels r !! listId with
  | Some channel =>
      {| channels := delete listId (channels r);
         open_channels := removeChannel channel (open_channels r);
         next_ref := next_ref r |}
  | None => r
  end.

(** [unsubscribeAll()]: every registered channel is removed from the client,
    then the map is cleared. *)
Definition unsubscribeAll (r : Registry) : Registry :=
  {| channels := ∅;
     open_channels :=
       map_fold (λ _ channel acc, removeChannel channel acc) (open_channels r) (channels r);
     next_ref := next_ref r |}.

(** [getActiveSubscriptionsCount()]. *)
Definition getActiveSubscriptionsCount (r : Registry) : nat := size (channels r).

(** The operations of the registry. *)
Inductive Op :=
| OpSubscribe (listId : string)
| OpUnsubscribe (listId : string)
| OpUnsubscribeAll.

Definition step (o : Op) (r : Registry) : Registry :=
  match o with
  | OpSubscribe listId => fst (subscribeToListItems listId r)
  | OpUnsubscribe listId => unsubscribeFromListItems listId r
  | OpUnsubscribeAll => unsubscribeAll r
  end.

Definition steps (os : list Op) (r : Registry) : Registry :=
  fold_left (λ r o, step o r) os r.

End RealtimeService.

(** ** items.ts *)

Module ItemsService.

(** The [{ data, error }] pair every service method returns. *)
Record Result (A : Type) := mkResult {
  data : option A;
  error : option Error;
}.
Arguments mkResult {A} _ _.
Arguments data {A} _.
Arguments error {A} _.

Record CreateItemData := mkCreateItemData {
  c_listId : string;
  c_text : string;
  c_quantity : option string;
  c_notes : option string;
  c_orderIndex : Z;
}.

Record UpdateItemData := mkUpdateItemData {
  u_text : option string;
  u_quantity : option string;
  u_notes : option string;
  u_isBought : option bool;
  u_orderIndex : option Z;
}.

(** One entry of the argument of [reorderItems]. *)
Record OrderUpdate := mkOrderUpdate {
  ou_id : string;
  ou_orderIndex : Z;
}.

(** *** The queries sent to the store *)

Inductive Value :=
| VStr (s : string)
| VBool (b : bool)
| VNum (z : Z).

Inductive Verb :=
| Select (columns : string)
| Update (set : list (string * Value)).

(** A query built with [supabase.from(table)...]: the verb, the [.eq]
    filters in the order written, [.order], and whether [.select()] and
    [.single()] follow an update. *)
Record Query := mkQuery {
  table : string;
  verb : Verb;
  eqs : list (string * Value);
  order : option (string * bool);
  returning : bool;
  single : bool;
}.

(** What the store answers to a query. *)
Record Response := mkResponse {
  rows : option (list DbItem);
  failure : option Error;
}.

(** A service method sends queries to a store and computes its result from
    the answers: a reader of the store, a writer of the queries sent. *)
Definition Service (A : Type) : Type := (Query -> Response) -> list Query * A.

#[export] Instance Service_ret : MRet Service := λ A a _, ([], a).
#[export] Instance Service_bind : MBind Service := λ A B f m store,
  let first := m store in
  let second := f first.2 store in
  (first.1 ++ second.1, second.2).

(** [await query]. *)
Definition send (q : Query) : Service Response := λ store, ([q], store q).

(** [await Promise.all(queries)]. *)
Fixpoint send_all (qs : list Query) : Service (list Response) :=
  match qs with
  | [] => mret []
  | q :: qs' => r ← send q; rs ← send_all qs'; mret (r :: rs)
  end.

Definition queries_sent {A} (m : Service A) (store : Query -> Response) : list Query :=
  fst (m store).

Definition result_of {A} (m : Service A) (store : Query -> Response) : A :=
  snd (m store).

(** The [data] of a [.single()] answer: the one row returned. *)
Definition single_row (r : Response) : option DbItem :=
  match rows r with
  | Some [row] => Some row
  | _ => None
  end.

Definition items_select : string :=
  "*, profiles:created_by (display_name, email)".

(** [getListItems(listId)]. *)
Definition getListItems (listId : string) : Service (Result (list DbItem)) :=
  r ← send {| table := "items"; verb := Select items_select;
              eqs := [("list_id", VStr listId); ("is_deleted", VBool false)];
              order := Some ("order_index", true);
              returning := false; single := false |};
  match failure r with
  | Some e => mret (mkResult None (Some e))
  | None => mret (mkResult (rows r) None)
  end.

(** [toggleItemBought(itemId, isBought)]; [now] is [new Date().toISOString()]. *)
Definition toggleItemBought (now : string) (itemId : string) (isBought : bool)
  : Service (Result DbItem) :=
  r ← send {| table := "items";
              verb := Update [("is_bought", VBool isBought); ("updated_at", VStr now)];
              eqs := [("id", VStr itemId)];
              order := None; returning := true; single := true |};
  match failure r with
  | Some e => mret (mkResult None (Some e))
  | None => mret (mkResult (single_row r) None)
  end.

(** [deleteItem(itemId)]: the soft delete. *)
Definition deleteItem (now : string) (itemId : string) : Service (Result DbItem) :=
  r ← send {| table := "items";
              verb := Update [("is_deleted", VBool true); ("updated_at", VStr now)];
              eqs := [("id", VStr itemId)];
              order := None; returning := true; single := true |};
  match failure r with
  | Some e => mret (mkResult None (Some e))
  | None => mret (mkResult (single_row r) None)
  end.

(** The query [reorderItems] builds for one entry; [now] is the
    [new Date().toISOString()] evaluated for that entry. *)
Definition position_update (now : string) (u : OrderUpdate) : Query :=
  {| table := "items";
     verb := Update [("order_index", VNum (ou_orderIndex u)); ("updated_at", VStr now)];
     eqs := [("id", VStr (ou_id u))];
     order := None; returning := false; single := false |}.

(** [reorderItems(updates)]: the result is its [error] field. The clock is
    read once for every entry: [now index] is the reading for the entry at
    [index]. *)
Definition reorderItems (now : nat → string) (updates : list OrderUpdate)
  : Service (option Error) :=
  results ← send_all (map_index (λ u index, position_update (now index) u) updates);
  match omap failure results with
  | e :: _ => mret (Some e)
  | [] => mret None
  end.

(** [clearBoughtItems(listId)]: the result is its [error] field. *)
Definition clearBoughtItems (now : string) (listId : string) : Service (option Error) :=
  r ← send {| table := "items";
              verb := Update [("is_deleted", VBool true); ("updated_at", VStr now)];
              eqs := [("list_id", VStr listId); ("is_bought", VBool true)];
              order := None; returning := false; single := false |};
  match failure r with
  | Some e => mret (Some e)
  | None => mret None
  end.

(** The calls the hook awaits, indexed by what they resolve to. *)
Inductive Call : Type -> Type :=
| CallGetListItems (listId : string) : Call (Result (list DbItem))
| CallCreateItem (d : CreateItemData) : Call (Result DbItem)
| CallUpdateItem (itemId : string) (updates : UpdateItemData) : Call (Result DbItem)
| CallToggleItemBought (itemId : string) (isBought : bool) : Call (Result DbItem)
| CallDeleteItem (itemId : string) : Call (Result DbItem)
| CallReorderItems (updates : list OrderUpdate) : Call (option Error)
| CallClearBoughtItems (listId : string) : Call (option Error).

(** The embedded body of a call, for a clock that stands still during the
    call: every reading is [now], also the one [reorderItems] takes for each
    update. [createItem] and [updateItem] validate and sanitise their input
    before they query and are kept abstract. *)
Definition body (now : string) {R} (c : Call R) : option (Service R) :=
  match c with
  | CallGetListItems listId => Some (getListItems listId)
  | CallToggleItemBought itemId isBought => Some (toggleItemBought now itemId isBought)
  | CallDeleteItem itemId => Some (deleteItem now itemId)
  | CallReorderItems updates => Some (reorderItems (λ _, now) updates)
  | CallClearBoughtItems listId => Some (clearBoughtItems now listId)
  | CallCreateItem _ => None
  | CallUpdateItem _ _ => None
  end.

End ItemsService.

(** ** useList.ts *)

Module useList.

Import RealtimeService.

(** The hook's React state ([items], [loading], [error]) and its
    [isPerformingOperation] ref. *)
Record HookState := mkHookState {
  items : list Item;
  loading : bool;
  error : option Error;
  isPerformingOperation : bool;
}.

(** The state of a freshly mounted hook. *)
Definition initial : HookState :=
  {| items := []; loading := true; error := None; isPerformingOperation := false |}.

Definition with_items (f : list Item -> list Item) (st : HookState) : HookState :=
  {| items := f (items st); loading := loading st; error := error st;
     isPerformingOperation := isPerformingOperation st |}.

Definition with_loading (b : bool) (st : HookState) : HookState :=
  {| items := items st; loading := b; error := error st;
     isPerformingOperation := isPerformingOperation st |}.

Definition with_error (e : option Error) (st : HookState) : HookState :=
  {| items := items st; loading := loading st; error := e;
     isPerformingOperation := isPerformingOperation st |}.

Definition with_performing (b : bool) (st : HookState) : HookState :=
  {| items := items st; loading := loading st; error := error st;
     isPerformingOperation := b |}.

(** *** Row mappings *)

(** The mapping of [handleRealtimeChange] (l. 67-79), also written out in
    [updateItem] (l. 168-180) and [toggleItem] (l. 199-211): no [createdBy],
    no [createdByName]. *)
Definition mapItem (dbItem : DbItem) : Item :=
  {| id := db_id dbItem;
     listId := list_id dbItem;
     text := db_text dbItem;
     quantity := or_undefined (db_quantity dbItem);
     notes := or_undefined (db_notes dbItem);
     isBought := is_bought dbItem;
     orderIndex := order_index dbItem;
     version := db_version dbItem;
     createdAt := created_at dbItem;
     updatedAt := updated_at dbItem;
     deletedAt := or_undefined (deleted_at dbItem);
     createdBy := None;
     createdByName := None |}.

(** The mapping of [fetchItems] (l. 27-41). *)
Definition mapFetchedItem (dbItem : DbItem) : Item :=
  {| id := db_id dbItem;
     listId := list_id dbItem;
     text := db_text dbItem;
     quantity := or_undefined (db_quantity dbItem);
     notes := or_undefined (db_notes dbItem);
     isBought := is_bought dbItem;
     orderIndex := order_index dbItem;
     version := db_version dbItem;
     createdAt := created_at dbItem;
     updatedAt := updated_at dbItem;
     deletedAt := or_undefined (deleted_at dbItem);
     createdBy := or_undefined (created_by dbItem);
     createdByName :=
       or_else (profiles dbItem ≫= display_name)
               (or_undefined (profiles dbItem ≫= email)) |}.

(** The mapping of [addItem] (l. 133-147). *)
Definition newItem (data : DbItem) (currentUserName : option string) : Item :=
  {| id := db_id data;
     listId := list_id data;
     text := db_text data;
     quantity := or_undefined (db_quantity data);
     notes := or_undefined (db_notes data);
     isBought := is_bought data;
     orderIndex := order_index data;
     version := db_version data;
     createdAt := created_at data;
     updatedAt := updated_at data;
     deletedAt := or_undefined (deleted_at data);
     createdBy := or_undefined (created_by data);
     createdByName :=
       or_else (profiles data ≫= display_name)
               (or_else (profiles data ≫= email) (or_undefined currentUserName)) |}.

(** *** The change-feed handler *)

(** The three [setItems] updaters of [handleRealtimeChange]. *)
Definition applyChange (change : ItemChange) (prev : list Item) : list Item :=
  let mappedItem := mapItem (item change) in
  match type change with
  | INSERT =>
      if existsb (λ item, String.eqb (id item) (id mappedItem)) prev
      then prev
      else prev ++ [mappedItem]
  | UPDATE =>
      map (λ item, if String.eqb (id item) (id mappedItem) then mappedItem else item) prev
  | DELETE =>
      List.filter (λ item, negb (String.eqb (id item) (id mappedItem))) prev
  end.

Definition handleRealtimeChange (change : ItemChange) (st : HookState) : HookState :=
  if isPerformingOperation st then st
  else with_items (applyChange change) st.

(** The handler run on a sequence of events, in order of arrival. *)
Definition deliver (changes : list ItemChange) (st : HookState) : HookState :=
  fold_left (λ st change, handleRealtimeChange change st) changes st.

(** The callback every [setTimeout] of the hook schedules. *)
Definition timeout_fired (st : HookState) : HookState := with_performing false st.

(** *** Programs *)

Inductive Effect : Type -> Type :=
| SetItems (f : list Item -> list Item) : Effect unit
| SetLoading (b : bool) : Effect unit
| SetError (e : option Error) : Effect unit
| SetPerforming (b : bool) : Effect unit
| SetTimeout (ms : nat) : Effect unit
| ItemsLength : Effect nat
| Await {R : Type} (c : ItemsService.Call R) : Effect R.

Inductive Prog (A : Type) : Type :=
| Ret (a : A)
| Vis {R : Type} (e : Effect R) (k : R -> Prog A).
Arguments Ret {A} _.
Arguments Vis {A R} _ _.

Fixpoint bind {A B : Type} (p : Prog A) (f : A -> Prog B) : Prog B :=
  match p with
  | Ret a => f a
  | Vis e k => Vis e (λ r, bind (k r) f)
  end.

#[export] Instance Prog_ret : MRet Prog := λ A a, Ret a.
#[export] Instance Prog_bind : MBind Prog := λ A B f p, bind p f.

Definition perform {R} (e : Effect R) : Prog R := Vis e Ret.

Definition setItems (f : list Item -> list Item) : Prog unit := perform (SetItems f).
Definition setLoading (b : bool) : Prog unit := perform (SetLoading b).
Definition setError (e : option Error) : Prog unit := perform (SetError e).
(** [isPerformingOperation.current = b]. *)
Definition setPerforming (b : bool) : Prog unit := perform (SetPerforming b).
(** [setTimeout(() => { isPerformingOperation.current = false }, ms)]. *)
Definition setTimeout (ms : nat) : Prog unit := perform (SetTimeout ms).
(** [items.length] of the callback's closure: the items as last rendered. *)
Definition itemsLength : Prog nat := perform ItemsLength.
Definition await {R} (c : ItemsService.Call R) : Prog R := perform (Await c).

(** *** Running a program *)

(** What the outside does: the answer to each service call, and the
    change-feed events that arrive while the call is being awaited. A run is
    one callback from its call to its last statement; the timers it arms fire
    after it ([timeout_fired]). A world is the outside of a callback that runs
    on its own: the timers of earlier callbacks and the other callbacks of the
    hook, which can run during an await, come in with [Outside] and
    [run_amid] below, of which [run] is the case [alone]. *)
Record World := mkWorld {
  respond : ∀ R, ItemsService.Call R -> R;
  feed : ∀ R, ItemsService.Call R -> list ItemChange;
}.

(** What the outside sees: a call issued, with the hook state at that moment;
    a timer armed. *)
Inductive Obs :=
| ObsCall {R : Type} (c : ItemsService.Call R) (seen : HookState)
| ObsTimeout (ms : nat).

(** The effects of a callback that runs on its own: an await lets in the
    events of the feed, each through [handleRealtimeChange], and nothing
    else. *)
Definition handle (w : World) {R} (e : Effect R) (st : HookState)
  : list Obs * HookState * R :=
  match e with
  | SetItems f => ([], with_items f st, ())
  | SetLoading b => ([], with_loading b st, ())
  | SetError err => ([], with_error err st, ())
  | SetPerforming b => ([], with_performing b st, ())
  | SetTimeout ms => ([ObsTimeout ms], st, ())
  | ItemsLength => ([], st, length (items st))
  | Await c => ([ObsCall c st], deliver (feed w _ c) st, respond w _ c)
  end.

Fixpoint run {A} (w : World) (p : Prog A) (st : HookState) : list Obs * HookState * A :=
  match p with
  | Ret a => ([], st, a)
  | Vis e k =>
      let here := handle w e st in
      let rest := run w (k here.2) here.1.2 in
      (here.1.1 ++ rest.1.1, rest.1.2, rest.2)
  end.

Definition trace {A} (w : World) (p : Prog A) (st : HookState) : list Obs :=
  (run w p st).1.1.

Definition final {A} (w : World) (p : Prog A) (st : HookState) : HookState :=
  (run w p st).1.2.

(** *** The callbacks of the hook *)

Definition fetchItems (listId : string) : Prog unit :=
  if falsy listId then mret () else
  setLoading true;;
  setError None;;
  r ← await (ItemsService.CallGetListItems listId);
  match ItemsService.error r with
  | Some fetchError =>
      setError (Some fetchError);;
      setItems (λ _, []);;
      setLoading false
  | None =>
      setItems (λ _, map mapFetchedItem (default [] (ItemsService.data r)));;
      setLoading false
  end.

Definition addItem (listId : string) (text : string) (quantity notes : option string)
    (currentUserName : option string) : Prog unit :=
  if falsy listId then mret () else
  setPerforming true;;
  orderIndex ← itemsLength;
  r ← await (ItemsService.CallCreateItem
               {| ItemsService.c_listId := listId;
                  ItemsService.c_text := text;
                  ItemsService.c_quantity := quantity;
                  ItemsService.c_notes := notes;
                  ItemsService.c_orderIndex := Z.of_nat orderIndex |});
  match ItemsService.error r with
  | Some createError =>
      setError (Some createError);;
      setPerforming false
  | None =>
      match ItemsService.data r with
      | Some data => setItems (λ prev, prev ++ [newItem data currentUserName])
      | None => mret ()
      end;;
      setTimeout 500
  end.

Definition updateItem (itemId : string) (updates : ItemsService.UpdateItemData) : Prog unit :=
  r ← await (ItemsService.CallUpdateItem itemId updates);
  match ItemsService.error r with
  | Some updateError => setError (Some updateError)
  | None =>
      match ItemsService.data r with
      | Some data =>
          let updatedItem := mapItem data in
          setItems (λ prev, map (λ item, if String.eqb (id item) itemId then updatedItem else item) prev)
      | None => mret ()
      end
  end.

Definition toggleItem (itemId : string) (isBought : bool) : Prog unit :=
  setPerforming true;;
  r ← await (ItemsService.CallToggleItemBought itemId isBought);
  match ItemsService.error r with
  | Some toggleError =>
      setError (Some toggleError);;
      setPerforming false
  | None =>
      match ItemsService.data r with
      | Some data =>
          let updatedItem := mapItem data in
          setItems (λ prev, map (λ item, if String.eqb (id item) itemId then updatedItem else item) prev)
      | None => mret ()
      end;;
      setTimeout 500
  end.

Definition deleteItem (itemId : string) : Prog unit :=
  setPerforming true;;
  r ← await (ItemsService.CallDeleteItem itemId);
  match ItemsService.error r with
  | Some deleteError =>
      setError (Some deleteError);;
      setPerforming false
  | None =>
      setItems (λ prev, List.filter (λ item, negb (String.eqb (id item) itemId)) prev);;
      setTimeout 500
  end.

(** The [updates] of [reorderItems]: every record with its index. *)
Definition orderUpdates (reorderedItems : list Item) : list ItemsService.OrderUpdate :=
  map_index (λ item index,
               {| ItemsService.ou_id := id item;
                  ItemsService.ou_orderIndex := Z.of_nat index |})
            reorderedItems.

Definition reorderItems (listId : string) (reorderedItems : list Item) : Prog unit :=
  setItems (λ _, reorderedItems);;
  let updates := orderUpdates reorderedItems in
  reorderError ← await (ItemsService.CallReorderItems updates);
  match reorderError with
  | Some e =>
      setError (Some e);;
      fetchItems listId
  | None => mret ()
  end.

Definition clearBoughtItems (listId : string) : Prog unit :=
  if falsy listId then mret () else
  clearError ← await (ItemsService.CallClearBoughtItems listId);
  match clearError with
  | Some e => setError (Some e)
  | None => setItems (λ prev, List.filter (λ item, negb (isBought item)) prev)
  end.

(** *** The derived views *)

Definition unboughtItems (st : HookState) : list Item :=
  List.filter (λ item, negb (isBought item)) (items st).

Definition boughtItems (st : HookState) : list Item :=
  List.filter (λ item, isBought item) (items st).

(** *** A callback amid the others *)

(** What an effect does to the state; an awaited call and a timer being armed
    change nothing by themselves. *)
Definition effect_on {R} (e : Effect R) (st : HookState) : HookState :=
  match e with
  | SetItems f => with_items f st
  | SetLoading b => with_loading b st
  | SetError err => with_error err st
  | SetPerforming b => with_performing b st
  | SetTimeout _ => st
  | ItemsLength => st
  | Await _ => st
  end.

(** What can happen to the hook while one of its callbacks awaits a call,
    everything running on the one task queue: the handler runs on a
    change-feed event; the callback of a [setTimeout] armed by an earlier
    callback runs and clears the flag all callbacks share; another callback of
    the hook runs one of its stretches between two awaits. *)
Inductive Arrival :=
| Changed (change : ItemChange)
| TimerFired
| Resumed (stretch : list (Effect unit)).

Definition befall (a : Arrival) (st : HookState) : HookState :=
  match a with
  | Changed change => handleRealtimeChange change st
  | TimerFired => timeout_fired st
  | Resumed stretch => fold_left (λ st e, effect_on e st) stretch st
  end.

Definition befallen (arrivals : list Arrival) (st : HookState) : HookState :=
  fold_left (λ st a, befall a st) arrivals st.

(** The outside of a callback that runs amid the others: the answer to each
    call and what happens to the hook, in order, while the call is awaited. *)
Record Outside := mkOutside {
  answer : ∀ R, ItemsService.Call R -> R;
  meanwhile : ∀ R, ItemsService.Call R -> list Arrival;
}.

Definition handle_amid (o : Outside) {R} (e : Effect R) (st : HookState)
  : list Obs * HookState * R :=
  match e with
  | SetItems f => ([], with_items f st, ())
  | SetLoading b => ([], with_loading b st, ())
  | SetError err => ([], with_error err st, ())
  | SetPerforming b => ([], with_performing b st, ())
  | SetTimeout ms => ([ObsTimeout ms], st, ())
  | ItemsLength => ([], st, length (items st))
  | Await c => ([ObsCall c st], befallen (meanwhile o _ c) st, answer o _ c)
  end.

Fixpoint run_amid {A} (o : Outside) (p : Prog A) (st : HookState)
  : list Obs * HookState * A :=
  match p with
  | Ret a => ([], st, a)
  | Vis e k =>
      let here := handle_amid o e st in
      let rest := run_amid o (k here.2) here.1.2 in
      (here.1.1 ++ rest.1.1, rest.1.2, rest.2)
  end.


Definition final_amid {A} (o : Outside) (p : Prog A) (st : HookState) : HookState :=
  (run_amid o p st).1.2.

(** The state of the hook when the answer to a call comes in, the call having
    been issued at [seen]. *)
Definition arrived {R} (o : Outside) (c : ItemsService.Call R) (seen : HookState) : HookState :=
  befallen (meanwhile o _ c) seen.

(** A world of [run] seen as an outside: events arrive, no timer armed earlier
    fires and no other callback runs while the callback awaits. *)
Definition alone (w : World) : Outside :=
  {| answer := respond w;
     meanwhile := λ R c, map Changed (feed w R c) |}.

End useList.

(** ** Vocabulary of the properties *)

Module Props.

Import RealtimeService useList.

(** The hook state at the moment the first service call of a trace is
    issued. *)
Fixpoint first_call (t : list Obs) : option HookState :=
  match t with
  | [] => None
  | ObsCall _ seen :: _ => Some seen
  | ObsTimeout _ :: t' => first_call t'
  end.

(** The service calls of a trace that load the whole list. *)
Fixpoint loads (t : list Obs) : list string :=
  match t with
  | [] => []
  | ObsCall c _ :: t' =>
      match c with
      | ItemsService.CallGetListItems listId => listId :: loads t'
      | _ => loads t'
      end
  | ObsTimeout _ :: t' => loads t'
  end.

(** The number of records of a list that carry a given id. *)
Definition occurrences (itemId : string) (l : list Item) : nat :=
  length (List.filter (λ item, String.eqb (id item) itemId) l).







(** [clearDone()] read as an optimistic operation: when the request is
    issued, no done record is left among the items. *)
Definition clear_is_optimistic : Prop :=
  ∀ (w : World) (st : HookState) (listId : string) (seen : HookState),
    listId ≠ "" →
    first_call (trace w (clearBoughtItems listId) st) = Some seen →
    ∀ it, In it (items seen) → isBought it = false.



(** [clearDone()] read as re-fetching the list when the request fails. *)
Definition clearDone_refetches_on_failure : Prop :=
  ∀ (w : World) (st : HookState) (listId : string) (e : Error),
    listId ≠ "" →
    respond w _ (ItemsService.CallClearBoughtItems listId) = Some e →
    In listId (loads (trace w (clearBoughtItems listId) st)).

(** At most one open channel of the client per list, every open channel
    registered under its list, and the map and the client in step. *)
Record registry_ok (r : Registry) : Prop := mkRegistryOk {
  open_nodup : NoDup (open_channels r);
  open_registered :
    ∀ c, c ∈ open_channels r ↔ ∃ listId, channels r !! listId = Some c;
  registered_topic :
    ∀ listId c, channels r !! listId = Some c →
      topic c = String.append "list-items-" listId ∧ channel_ref c < next_ref r;
}.

(** The open channels of the client that listen to a list. *)
Definition channels_of (listId : string) (r : Registry) : list RealtimeChannel :=
  List.filter (λ c, String.eqb (topic c) (String.append "list-items-" listId))
              (open_channels r).

(** *** Sample data *)

Definition row (itemId : string) (bought : bool) (updated : string) : DbItem :=
  {| db_id := itemId; list_id := "l1"; db_text := "Milk";
     is_bought := bought; is_deleted := false; order_index := 0;
     created_by := Some "u1"; created_at := "2024-01-01T00:00:00.000Z";
     updated_at := updated; db_version := 1; deleted_at := None;
     db_notes := None; db_quantity := None; is_important := false;
     profiles := Some {| display_name := Some "Ann"; email := Some "ann@example.org" |} |}.

Definition record (itemId : string) (bought : bool) (updated : string) : Item :=
  mapFetchedItem (row itemId bought updated).

Definition jan1 : string := "2024-01-01T00:00:00.000Z".
Definition jan2 : string := "2024-01-02T00:00:00.000Z".

(** A store in which every request fails and no event arrives. *)
Definition failing (e : Error) : World :=
  {| respond := λ R c,
       match c in ItemsService.Call R return R with
       | ItemsService.CallGetListItems _ => ItemsService.mkResult None (Some e)
       | ItemsService.CallCreateItem _ => ItemsService.mkResult None (Some e)
       | ItemsService.CallUpdateItem _ _ => ItemsService.mkResult None (Some e)
       | ItemsService.CallToggleItemBought _ _ => ItemsService.mkResult None (Some e)
       | ItemsService.CallDeleteItem _ => ItemsService.mkResult None (Some e)
       | ItemsService.CallReorderItems _ => Some e
       | ItemsService.CallClearBoughtItems _ => Some e
       end;
     feed := λ R c, [] |}.

(** A store that answers every request with the given row (and the given
    rows to a load) while the given events arrive during each call. *)
Definition answering (d : DbItem) (all : list DbItem) (events : list ItemChange) : World :=
  {| respond := λ R c,
       match c in ItemsService.Call R return R with
       | ItemsService.CallGetListItems _ => ItemsService.mkResult (Some all) None
       | ItemsService.CallCreateItem _ => ItemsService.mkResult (Some d) None
       | ItemsService.CallUpdateItem _ _ => ItemsService.mkResult (Some d) None
       | ItemsService.CallToggleItemBought _ _ => ItemsService.mkResult (Some d) None
       | ItemsService.CallDeleteItem _ => ItemsService.mkResult (Some d) None
       | ItemsService.CallReorderItems _ => None
       | ItemsService.CallClearBoughtItems _ => None
       end;
     feed := λ R c, events |}.

(** A loaded hook showing the given records. *)
Definition showing (l : list Item) : HookState :=
  {| items := l; loading := false; error := None; isPerformingOperation := false |}.

(** A store that accepts every query. *)
Definition accepting : ItemsService.Query -> ItemsService.Response :=
  λ _, {| ItemsService.rows := None; ItemsService.failure := None |}.

End Props.

(** ** JavaScript strings *)

Module JSString.

(** A JavaScript string: the sequence of its UTF-16 code units. *)
Definition jsstring : Type := list N.

(** The code units of a literal. *)
Definition units (s : string) : jsstring :=
  map Ascii.N_of_ascii (String.list_ascii_of_string s).

(** WhiteSpace and LineTerminator of ECMAScript, what [trim] strips: tab,
    line feed, vertical tab, form feed, carriage return, space, no-break
    space, U+1680, U+2000 to U+200A, U+2028, U+2029, U+202F, U+205F, U+3000
    and U+FEFF. *)
Definition isWhiteSpace (c : N) : bool :=
  existsb (N.eqb c) [9; 10; 11; 12; 13; 32; 160; 5760; 8232; 8233; 8239; 8287; 12288; 65279]%N
  || (N.leb 8192 c && N.leb c 8202).

Fixpoint trimStart (s : jsstring) : jsstring :=
  match s with
  | [] => []
  | c :: s' => if isWhiteSpace c then trimStart s' else s
  end.

Definition trimEnd (s : jsstring) : jsstring := rev (trimStart (rev s)).

(** [s.trim()]. *)
Definition trim (s : jsstring) : jsstring := trimEnd (trimStart s).

(** [<] and [>], the characters of the class [[<>]]. *)
Definition isAngle (c : N) : bool := N.eqb c 60 || N.eqb c 62.

End JSString.

(** ** validation.ts and sanitization.ts *)

Module validation.

Import JSString.

(** A call that returns or throws. *)
Inductive Outcome (A : Type) : Type :=
| Returned (a : A)
| Thrown (e : Error).
Arguments Returned {A} _.
Arguments Thrown {A} _.

Definition validateItemText (text : jsstring) : Outcome bool :=
  if Nat.eqb (length text) 0 || Nat.eqb (length (trim text)) 0
  then Thrown "Item text cannot be empty"
  else if Nat.ltb 500 (length text)
  then Thrown "Item text too long (max 500 characters)"
  else Returned true.

End validation.

Module sanitization.

Import JSString.

(** [text.trim().replace(/[<>]/g, '').substring(0, 500)]. *)
Definition sanitizeText (text : jsstring) : jsstring :=
  take 500 (List.filter (λ c, negb (isAngle c)) (trim text)).

End sanitization.

(** ** realtime.ts: the handlers *)

Module RealtimeHandlers.

Import RealtimeService.

(** The payload of a [postgres_changes] notification. *)
Record Payload := mkPayload {
  payload_new : DbItem;
  payload_old : DbItem;
}.

(** The three [.on('postgres_changes', ...)] callbacks of
    [subscribeToListItems]: the change passed to [onChange]. *)
Definition changeOf (event : ItemChangeType) (payload : Payload) : ItemChange :=
  match event with
  | INSERT => {| type := INSERT; item := payload_new payload; old := None |}
  | UPDATE => {| type := UPDATE; item := payload_new payload;
                 old := Some (payload_old payload) |}
  | DELETE => {| type := DELETE; item := payload_old payload; old := None |}
  end.

(** The registry together with the [onChange] each channel object was built
    with, by the identity of the channel; a handler is named by a number (the
    hook instance whose [handleRealtimeChange] it is). *)
Record Subscriptions := mkSubscriptions {
  registry : Registry;
  onChangeOf : gmap nat nat;
}.

Definition no_subscriptions : Subscriptions :=
  {| registry := empty_registry; onChangeOf := ∅ |}.

(** [subscribeToListItems(listId, onChange)] with its second argument:
    [onChange] is captured by the callbacks of the channel created, and is
    not looked at when the list already has a channel. *)
Definition subscribeWith (listId : string) (onChange : nat) (s : Subscriptions)
  : Subscriptions * RealtimeChannel :=
  match channels (registry s) !! listId with
  | Some existingChannel => (s, existingChannel)
  | None =>
      let channel := new_channel listId (registry s) in
      ({| registry := (subscribeToListItems listId (registry s)).1;
          onChangeOf := <[channel_ref channel := onChange]> (onChangeOf s) |},
       channel)
  end.

Definition unsubscribe (listId : string) (s : Subscriptions) : Subscriptions :=
  {| registry := unsubscribeFromListItems listId (registry s);
     onChangeOf := onChangeOf s |}.

(** The handler the channel of a list calls, if the list has a channel. *)
Definition handlerOf (listId : string) (s : Subscriptions) : option nat :=
  channels (registry s) !! listId ≫= λ channel, onChangeOf s !! channel_ref channel.

(** The subscription effect of [useList] (l. 57-108) for the hook instance
    [hook]: on mount, and its cleanup. Without a list id the effect returns
    before it subscribes and has no cleanup. *)
Definition mount (hook : nat) (listId : string) (s : Subscriptions) : Subscriptions :=
  if falsy listId then s else (subscribeWith listId hook s).1.

Definition unmount (listId : string) (s : Subscriptions) : Subscriptions :=
  if falsy listId then s else unsubscribe listId s.

(** What hooks do to the subscriptions. *)
Inductive Lifecycle :=
| Mount (hook : nat) (listId : string)
| Unmount (listId : string).

Definition lifecycle (e : Lifecycle) (s : Subscriptions) : Subscriptions :=
  match e with
  | Mount hook listId => mount hook listId s
  | Unmount listId => unmount listId s
  end.

Definition lifecycles (es : list Lifecycle) (s : Subscriptions) : Subscriptions :=
  fold_left (λ s e, lifecycle e s) es s.

End RealtimeHandlers.

(** ** ListScreen.tsx and DraggableList.tsx *)

Module ListScreen.

Import useList.

(** The signed-in user, as far as the screen reads it. *)
Record User := mkUser {
  user_id : string;
  user_email : option string;
}.

(** The arguments of [NotificationService.notifyListMembers]. *)
Record Notification := mkNotification {
  n_listId : string;
  n_currentUserId : string;
  n_currentUserName : string;
  n_itemText : string;
  n_listName : string;
}.

(** The character [@] (code 64). *)
Definition at_sign : Ascii.ascii := Ascii.ascii_of_nat 64.

(** [s.split('@')[0]]. *)
Fixpoint beforeAt (s : string) : string :=
  match s with
  | EmptyString => EmptyString
  | String c s' => if Ascii.eqb c at_sign then EmptyString else String c (beforeAt s')
  end.

(** [user.email?.split('@')[0] || 'Someone']. *)
Definition displayName (user : User) : string :=
  match or_undefined (beforeAt <$> user_email user) with
  | Some name => name
  | None => "Someone"
  end.

(** [handleAddItem(text, quantity, isImportant)]: the hook's [addItem] is
    awaited (it reads four arguments), then the other members are notified
    when a list and a user are set. The result is the run of [addItem] and the
    notification requested, if any. *)
Definition handleAddItem (currentListId : option string) (user : option User)
    (listName text : string) (quantity : option string)
    (w : World) (st : HookState) : list Obs * HookState * option Notification :=
  let added :=
    run w (addItem (default "" currentListId) text quantity None
                   (or_undefined (user ≫= user_email))) st in
  (added.1.1, added.1.2,
   match or_undefined currentListId, user with
   | Some listId, Some u =>
       Some {| n_listId := listId; n_currentUserId := user_id u;
               n_currentUserName := displayName u;
               n_itemText := text; n_listName := listName |}
   | _, _ => None
   end).

(** [DraggableList]'s [handleReorder] as the screen wires it: the list shown
    is [unboughtItems], the callback is the hook's [reorderItems];
    [moved] is [reorderItems(items, from, to)] of the list library. *)
Definition handleReorder (listId : string) (moved : list Item → nat → nat → list Item)
    (from to : nat) (st : HookState) : Prog unit :=
  reorderItems listId (moved (unboughtItems st) from to).

End ListScreen.

(** ** logger.ts *)

Module Logger.

(** What is logged: a primitive value, an array, or an object with its
    prototype and its own enumerable entries as [Object.entries] lists them.
    The prototype is [None] for [Object.prototype], the prototype of a plain
    object, and [Some d] for the value [d] the object inherits from,
    [Prim Null] for none. *)
Inductive Primitive :=
| Undefined
| Null
| Boolean (b : bool)
| Number (z : Z)
| Str (s : string).

#[warnings="-register-all"] Inductive LogData :=
| Prim (p : Primitive)
| Arr (elements : list LogData)
| Obj (prototype : option LogData) (entries : list (string * LogData)).

Definition SENSITIVE_FIELDS : list string :=
  ["password"; "token"; "session"; "email"; "access_token"; "refresh_token";
   "api_key"; "secret"; "auth"; "authorization"].

(** [s.includes(field)]. *)
Fixpoint includes (s field : string) : bool :=
  String.prefix field s
  || match s with
     | EmptyString => false
     | String _ s' => includes s' field
     end.

(** [sanitized[key] = value] on a fresh [{}], for every key in turn. A key
    other than [__proto__] becomes an own entry. The key [__proto__] is the
    accessor of [Object.prototype]: the assignment creates no entry; it makes
    an object, an array or [null] the prototype and ignores any other
    value. *)
Definition isProto (key : string) : bool := String.eqb key "__proto__".

Definition assignProto (value : LogData) (current : option LogData) : option LogData :=
  match value with
  | Prim Null => Some (Prim Null)
  | Prim _ => current
  | _ => Some value
  end.

Definition prototypeAfter (written : list (string * LogData)) : option LogData :=
  fold_left (λ current entry, if isProto entry.1 then assignProto entry.2 current else current)
            written None.

Definition entriesAfter (written : list (string * LogData)) : list (string * LogData) :=
  List.filter (λ entry, negb (isProto entry.1)) written.

Section Sanitize.

(** [String.prototype.toLowerCase]. *)
Variable toLowerCase : string → string.

Definition isSensitive (key : string) : bool :=
  existsb (λ field, includes (toLowerCase key) field) SENSITIVE_FIELDS.

(** [Logger.sanitize(data)]: the loop assigns, for every entry of
    [Object.entries(data)] in turn, the placeholder, the sanitized value or
    the value. *)
Fixpoint sanitize (data : LogData) : LogData :=
  match data with
  | Prim p => Prim p
  | Arr elements => Arr (map sanitize elements)
  | Obj _ entries =>
      let written :=
        map (λ entry,
               let '(key, value) := entry in
               (key,
                if isSensitive key then Prim (Str "[REDACTED]")
                else match value with
                     | Prim p => Prim p
                     | _ => sanitize value
                     end))
            entries in
      Obj (prototypeAfter written) (entriesAfter written)
  end.

(** Every value stored under a sensitive key, at any depth of entries,
    elements and prototypes, is the placeholder. *)
#[warnings="-register-all"] Inductive Redacted : LogData → Prop :=
| RedactedPrim p : Redacted (Prim p)
| RedactedArr elements : Forall Redacted elements → Redacted (Arr elements)
| RedactedObj prototype entries :
    option_Forall Redacted prototype →
    Forall (λ entry, (isSensitive entry.1 = true ∧ entry.2 = Prim (Str "[REDACTED]"))
                     ∨ (isSensitive entry.1 = false ∧ Redacted entry.2)) entries →
    Redacted (Obj prototype entries).

(** Plain objects all the way down, no key of which is [__proto__] or
    contains a sensitive word. *)
#[warnings="-register-all"] Inductive Plain : LogData → Prop :=
| PlainPrim p : Plain (Prim p)
| PlainArr elements : Forall Plain elements → Plain (Arr elements)
| PlainObj entries :
    Forall (λ entry, isProto entry.1 = false ∧ isSensitive entry.1 = false ∧ Plain entry.2)
           entries →
    Plain (Obj None entries).

End Sanitize.

(** Data no own key of which is [__proto__], at any depth of entries and
    elements; the prototypes are not looked at. *)
#[warnings="-register-all"] Inductive Ordinary : LogData → Prop :=
| OrdinaryPrim p : Ordinary (Prim p)
| OrdinaryArr elements : Forall Ordinary elements → Ordinary (Arr elements)
| OrdinaryObj prototype entries :
    Forall (λ entry, isProto entry.1 = false ∧ Ordinary entry.2) entries →
    Ordinary (Obj prototype entries).

(** Lower case of the letters A to Z. *)
Definition lowerAscii (s : string) : string :=
  String.string_of_list_ascii
    (map (λ c, let n := Ascii.nat_of_ascii c in
               if Nat.leb 65 n && Nat.leb n 90 then Ascii.ascii_of_nat (n + 32) else c)
         (String.list_ascii_of_string s)).

End Logger.

(** ** Vocabulary of further properties *)

Module Scenarios.

Import RealtimeService useList Props.

(** An update that changes nothing. *)
Definition no_updates : ItemsService.UpdateItemData :=
  {| ItemsService.u_text := None; ItemsService.u_quantity := None;
     ItemsService.u_notes := None; ItemsService.u_isBought := None;
     ItemsService.u_orderIndex := None |}.

(** A store that refuses to reorder and answers everything else. *)
Definition refusing_reorder (e : Error) (all : list DbItem) : World :=
  {| respond := λ R c,
       match c in ItemsService.Call R return R with
       | ItemsService.CallReorderItems _ => Some e
       | c' => respond (answering (row "r1" false jan1) all []) _ c'
       end;
     feed := λ R c, [] |}.

(** A row that was soft-deleted. *)
Definition tombstone (itemId : string) : DbItem :=
  {| db_id := itemId; list_id := "l1"; db_text := "Milk";
     is_bought := false; is_deleted := true; order_index := 0;
     created_by := Some "u1"; created_at := jan1;
     updated_at := jan2; db_version := 2; deleted_at := None;
     db_notes := None; db_quantity := None; is_important := false;
     profiles := None |}.

(** Moving the element at [from] to position [to], as a list library does. *)
Definition move (l : list Item) (from to : nat) : list Item :=
  match l !! from with
  | Some x => let rest := take from l ++ drop (S from) l in
              take to rest ++ x :: drop to rest
  | None => l
  end.

(** An insert event read as leaving exactly one record with its id once it
    was delivered twice, whatever the state. *)
Definition insert_twice_leaves_one : Prop :=
  ∀ (st : HookState) (change : ItemChange),
    type change = INSERT →
    occurrences (db_id (item change))
      (items (handleRealtimeChange change (handleRealtimeChange change st))) = 1.



(** A store that answers every request with the given row, the given things
    happening to the hook during each. *)
Definition answering_amid (d : DbItem) (all : list DbItem) (arrivals : list Arrival) : Outside :=
  {| answer := respond (answering d all []); meanwhile := λ R c, arrivals |}.


End Scenarios.

(** * Properties *)

Import RealtimeService useList Props Scenarios.

(** ** Helper lemmas *)

Section Helpers.

Lemma falsy_false (s : string) : s ≠ "" → falsy s = false.
Proof. intros Hs. unfold falsy. by apply String.eqb_neq. Qed.

Lemma falsy_true (s : string) : falsy s = true → s = "".
Proof. unfold falsy. apply String.eqb_eq. Qed.

(** While the flag is set the handler drops every event. *)
Lemma deliver_performing (changes : list ItemChange) (st : HookState) :
  isPerformingOperation st = true → deliver changes st = st.
Proof.
  intros Hflag. unfold deliver.
  induction changes as [|change changes IH]; simpl; [done|].
  unfold handleRealtimeChange at 2. by rewrite Hflag.
Qed.

(** The handler touches the items only. *)
Lemma deliver_frame (changes : list ItemChange) (st : HookState) :
  loading (deliver changes st) = loading st
  ∧ error (deliver changes st) = error st
  ∧ isPerformingOperation (deliver changes st) = isPerformingOperation st.
Proof.
  unfold deliver. revert st.
  induction changes as [|change changes IH]; intros st; simpl; [done|].
  destruct (IH (handleRealtimeChange change st)) as (Hl & He & Hp).
  rewrite Hl, He, Hp.
  unfold handleRealtimeChange.
  by destruct (isPerformingOperation st) eqn:Hflag.
Qed.

Lemma filter_sublist {A} (f : A → bool) (l : list A) : sublist (List.filter f l) l.
Proof.
  induction l as [|x l IH]; simpl; [constructor|].
  destruct (f x); by constructor.
Qed.

Lemma filter_split_perm {A} (f : A → bool) (l : list A) :
  Permutation (List.filter (λ x, negb (f x)) l ++ List.filter f l) l.
Proof.
  induction l as [|x l IH]; simpl; [done|].
  destruct (f x); simpl.
  - rewrite <- Permutation_middle. by constructor.
  - by constructor.
Qed.

Lemma filter_none {A} (f : A → bool) (l : list A) :
  (∀ x, In x l → f x = true) → List.filter f l = l.
Proof.
  induction l as [|x l IH]; simpl; intros Hall; [done|].
  rewrite (Hall x) by auto. f_equal. apply IH. auto.
Qed.

Lemma filter_twice {A} (f : A → bool) (l : list A) :
  List.filter f (List.filter f l) = List.filter f l.
Proof.
  apply filter_none. intros x Hx. by apply filter_In in Hx as [_ ?].
Qed.

(** Events alone, arriving while the flag is set, change nothing. *)
Lemma befallen_events (changes : list ItemChange) (st : HookState) :
  befallen (map Changed changes) st = deliver changes st.
Proof.
  unfold befallen, deliver. revert st.
  induction changes as [|change changes IH]; intros st; [done|]. cbn. apply IH.
Qed.

(** A callback on its own is a callback amid nothing but events. *)
Lemma run_alone {A} (w : World) (p : Prog A) (st : HookState) :
  run_amid (alone w) p st = run w p st.
Proof.
  revert st. induction p as [a|R e k IH]; intros st; [done|]. cbn.
  assert (Hhandle : handle_amid (alone w) e st = handle w e st).
  { destruct e; try done. cbn. by rewrite befallen_events. }
  rewrite Hhandle. by rewrite IH.
Qed.

End Helpers.

(** Running a service method: expose the queries sent and the result. *)
Ltac service_run :=
  unfold ItemsService.queries_sent, ItemsService.result_of;
  unfold mbind, ItemsService.Service_bind, mret, ItemsService.Service_ret,
    ItemsService.send;
  cbn.

(** ** Loading *)

(** C9. When [fetchItems] fails, the items are set to the empty list, whatever
    was cached, the error is the fetch error and the loading flag is cleared. *)
Theorem fetch_failure_discards_items
    (w : World) (st : HookState) (listId : string) (fetchError : Error) :
  listId ≠ "" →
  ItemsService.error (respond w _ (ItemsService.CallGetListItems listId)) = Some fetchError →
  final w (fetchItems listId) st =
    {| items := []; loading := false; error := Some fetchError;
       isPerformingOperation := isPerformingOperation st |}
  ∧ trace w (fetchItems listId) st
    = [ObsCall (ItemsService.CallGetListItems listId)
               (with_error None (with_loading true st))].
Proof.
  intros HlistId Hfail.
  unfold final, trace, fetchItems. rewrite (falsy_false _ HlistId).
  cbn. rewrite Hfail. cbn.
  pose proof (deliver_frame
    (feed w _ (ItemsService.CallGetListItems listId))
    (with_error None (with_loading true st))) as (_ & _ & Hflag).
  split; [|done].
  unfold with_loading at 1, with_items, with_error at 1. cbn. by rewrite Hflag.
Qed.

Lemma fetch_failure_discards_items_witness :
  "l1" ≠ ""
  ∧ items (final (failing "boom") (fetchItems "l1")
                 (showing [record "r1" false jan1; record "r2" true jan2])) = []
  ∧ error (final (failing "boom") (fetchItems "l1")
                 (showing [record "r1" false jan1; record "r2" true jan2])) = Some "boom".
Proof.
  split; [discriminate|].
  destruct (fetch_failure_discards_items (failing "boom")
              (showing [record "r1" false jan1; record "r2" true jan2])
              "l1" "boom") as [-> _]; [discriminate|reflexivity|].
  split; reflexivity.
Defined.

(** ** Order of the local change and the request *)

Section NotOptimistic.


(** The clear request is issued while the bought records are still there. *)
Lemma clear_waits_for_store : ¬ clear_is_optimistic.
Proof.
  intros Hopt.
  specialize (Hopt (failing "boom") (showing [record "r2" true jan1]) "l1"
                (showing [record "r2" true jan1])
                ltac:(discriminate) eq_refl (record "r2" true jan1) (or_introl eq_refl)).
  discriminate Hopt.
Qed.

End NotOptimistic.




(** ** Removal that fails *)




(** ** Clearing the bought records *)

(** C5 (as stated): the request of [clearBoughtItems] is issued while the
    bought records are still among the items, and a failed
    [clearBoughtItems] loads nothing. *)
Lemma clear_is_confirmed_first_and_never_refetches :
  ¬ clear_is_optimistic ∧ ¬ clearDone_refetches_on_failure.
Proof.
  split; [exact clear_waits_for_store|].
  intros Hrefetch.
  exact (Hrefetch (failing "boom") (showing [record "r2" true jan1]) "l1" "boom"
           ltac:(discriminate) eq_refl).
Qed.

(** C5 (amended). [clearBoughtItems] issues one call, with the state as it
    was; the call sends one update that sets [is_deleted] on the rows of the
    list whose [is_bought] is true. On success every bought record is
    filtered out of the items; on failure the error is set, the operation
    changes no item and nothing is loaded. *)
Theorem clear_bought_after_confirmation
    (w : World) (st : HookState) (listId now : string)
    (store : ItemsService.Query → ItemsService.Response) :
  listId ≠ "" →
  let arrived := deliver (feed w _ (ItemsService.CallClearBoughtItems listId)) st in
  trace w (clearBoughtItems listId) st
  = [ObsCall (ItemsService.CallClearBoughtItems listId) st]
  ∧ (∃ m, ItemsService.body now (ItemsService.CallClearBoughtItems listId) = Some m
          ∧ ItemsService.queries_sent m store
            = [ {| ItemsService.table := "items";
                   ItemsService.verb :=
                     ItemsService.Update [("is_deleted", ItemsService.VBool true);
                                          ("updated_at", ItemsService.VStr now)];
                   ItemsService.eqs := [("list_id", ItemsService.VStr listId);
                                        ("is_bought", ItemsService.VBool true)];
                   ItemsService.order := None;
                   ItemsService.returning := false;
                   ItemsService.single := false |} ]
          ∧ ItemsService.result_of m store
            = ItemsService.failure
                (store {| ItemsService.table := "items";
                          ItemsService.verb :=
                            ItemsService.Update [("is_deleted", ItemsService.VBool true);
                                                 ("updated_at", ItemsService.VStr now)];
                          ItemsService.eqs := [("list_id", ItemsService.VStr listId);
                                               ("is_bought", ItemsService.VBool true)];
                          ItemsService.order := None;
                          ItemsService.returning := false;
                          ItemsService.single := false |}))
  ∧ (respond w _ (ItemsService.CallClearBoughtItems listId) = None →
     final w (clearBoughtItems listId) st
     = with_items (List.filter (λ item, negb (isBought item))) arrived
     ∧ ∀ it, In it (items (final w (clearBoughtItems listId) st)) → isBought it = false)
  ∧ (∀ clearError,
       respond w _ (ItemsService.CallClearBoughtItems listId) = Some clearError →
       final w (clearBoughtItems listId) st = with_error (Some clearError) arrived).
Proof.
  intros HlistId arrived.
  split.
  { unfold trace, clearBoughtItems. rewrite (falsy_false _ HlistId). cbn.
    by destruct (respond _ _ _). }
  split.
  { eexists. split; [reflexivity|].
    unfold ItemsService.clearBoughtItems. service_run.
    by destruct (ItemsService.failure _). }
  split.
  - intros Hok.
    assert (Hfinal : final w (clearBoughtItems listId) st
                     = with_items (List.filter (λ item, negb (isBought item))) arrived).
    { unfold final, clearBoughtItems. rewrite (falsy_false _ HlistId). cbn.
      by rewrite Hok. }
    split; [done|]. rewrite Hfinal. cbn. intros it Hit.
    apply filter_In in Hit as [_ Hit]. by apply negb_true_iff.
  - intros clearError Hfail.
    unfold final, clearBoughtItems. rewrite (falsy_false _ HlistId). cbn.
    by rewrite Hfail.
Qed.

Lemma clear_bought_after_confirmation_witness :
  "l1" ≠ ""
  ∧ trace (failing "boom") (clearBoughtItems "l1")
          (showing [record "r1" false jan1; record "r2" true jan1])
    = [ObsCall (ItemsService.CallClearBoughtItems "l1")
               (showing [record "r1" false jan1; record "r2" true jan1])].
Proof.
  split; [discriminate|].
  apply (clear_bought_after_confirmation (failing "boom")
           (showing [record "r1" false jan1; record "r2" true jan1])
           "l1" jan2 accepting).
  discriminate.
Defined.

(** ** The change feed *)

Section ChangeFeed.

Lemma existsb_occurrences (itemId : string) (l : list Item) :
  existsb (λ item, String.eqb (id item) itemId) l = negb (Nat.eqb (occurrences itemId l) 0).
Proof.
  unfold occurrences. induction l as [|x l IH]; simpl; [done|].
  destruct (String.eqb (id x) itemId); simpl; [done|exact IH].
Qed.

Lemma occurrences_app (itemId : string) (l1 l2 : list Item) :
  occurrences itemId (l1 ++ l2) = occurrences itemId l1 + occurrences itemId l2.
Proof. unfold occurrences. by rewrite List.filter_app, length_app. Qed.

Lemma applyChange_twice (change : ItemChange) (l : list Item) :
  applyChange change (applyChange change l) = applyChange change l.
Proof.
  unfold applyChange. destruct (type change).
  - destruct (existsb _ l) eqn:Hexists; [by rewrite Hexists|].
    rewrite existsb_app. simpl. by rewrite String.eqb_refl, orb_true_r.
  - rewrite map_map. apply map_ext. intros x.
    destruct (String.eqb (id x) _) eqn:Hx; [|by rewrite Hx].
    by rewrite String.eqb_refl.
  - apply filter_twice.
Qed.

Lemma handleRealtimeChange_twice (change : ItemChange) (st : HookState) :
  handleRealtimeChange change (handleRealtimeChange change st)
  = handleRealtimeChange change st.
Proof.
  unfold handleRealtimeChange.
  destruct (isPerformingOperation st) eqn:Hflag; [by rewrite Hflag|].
  cbn. rewrite Hflag. unfold with_items. cbn. by rewrite applyChange_twice.
Qed.

End ChangeFeed.




(** C3 (as stated): an insert delivered twice while the flag is set leaves no
    record with its id, and delivered twice to items that hold the id twice
    leaves two. *)
Lemma insert_twice_need_not_leave_one :
  ¬ insert_twice_leaves_one
  ∧ occurrences "r2"
      (items (handleRealtimeChange
                {| type := INSERT; item := row "r2" false jan1; old := None |}
                (handleRealtimeChange
                   {| type := INSERT; item := row "r2" false jan1; old := None |}
                   (with_performing true (showing [record "r1" false jan1]))))) = 0
  ∧ occurrences "r1"
      (items (handleRealtimeChange
                {| type := INSERT; item := row "r1" false jan1; old := None |}
                (handleRealtimeChange
                   {| type := INSERT; item := row "r1" false jan1; old := None |}
                   (showing [record "r1" false jan1; record "r1" true jan2])))) = 2.
Proof.
  split; [|split; reflexivity].
  intros Hone.
  specialize (Hone (with_performing true (showing [record "r1" false jan1]))
                {| type := INSERT; item := row "r2" false jan1; old := None |} eq_refl).
  discriminate Hone.
Qed.

(** C3 (amended). Delivering an event a second time changes nothing: the
    handler is idempotent for inserts, updates and deletes alike, in every
    state. A delete for an id that is not among the items leaves the state as
    it is, both times. While the flag is set an event is dropped, both times.
    With the flag clear, an insert delivered twice leaves as many records
    with its id as there were, and one if there was none: exactly one when
    the id occurred at most once. The handler is a total function: it raises
    no error. *)
Theorem remote_change_idempotent (change : ItemChange) (st : HookState) :
  let itemId := db_id (item change) in
  let once := handleRealtimeChange change st in
  let twice := handleRealtimeChange change once in
  twice = once
  ∧ (type change = DELETE → occurrences itemId (items st) = 0 → once = st ∧ twice = st)
  ∧ (isPerformingOperation st = true → once = st ∧ twice = st)
  ∧ (type change = INSERT → isPerformingOperation st = false →
     occurrences itemId (items twice) = Nat.max 1 (occurrences itemId (items st))
     ∧ ((occurrences itemId (items st) ≤ 1)%nat → occurrences itemId (items twice) = 1)).
Proof.
  intros itemId once twice.
  assert (Htwice : twice = once) by apply handleRealtimeChange_twice.
  split; [done|]. rewrite Htwice. subst once. clear twice Htwice. split.
  - intros Htype Hocc.
    assert (handleRealtimeChange change st = st) as ->; [|done].
    unfold handleRealtimeChange. destruct (isPerformingOperation st) eqn:Hflag; [done|].
    unfold with_items, applyChange. rewrite Htype.
    rewrite filter_none; [by destruct st; cbn in *; subst|].
    intros x Hx. apply negb_true_iff. destruct (String.eqb (id x) _) eqn:Heq; [|done].
    exfalso. unfold occurrences in Hocc.
    assert (In x (List.filter (λ it, String.eqb (id it) itemId) (items st)))
      as Hin by (apply filter_In; done).
    destruct (List.filter _ (items st)); [done|discriminate].
  - split.
    { intros Hflag. unfold handleRealtimeChange. by rewrite Hflag. }
    intros Htype Hflag.
    assert (Hcount : occurrences itemId (items (handleRealtimeChange change st))
                     = Nat.max 1 (occurrences itemId (items st))).
    { unfold handleRealtimeChange. rewrite Hflag. unfold with_items. cbn [items].
      unfold applyChange. rewrite Htype. rewrite existsb_occurrences.
      change (id (mapItem (item change))) with itemId.
      destruct (Nat.eqb_spec (occurrences itemId (items st)) 0) as [Hnone|Hsome];
        cbn [negb].
      - rewrite occurrences_app, Hnone. unfold occurrences. cbn. fold itemId.
        by rewrite String.eqb_refl.
      - lia. }
    split; [done|]. intros Hocc. rewrite Hcount. lia.
Qed.

Lemma remote_change_idempotent_witness :
  type {| type := INSERT; item := row "r2" false jan1; old := None |} = INSERT
  ∧ isPerformingOperation (showing [record "r1" false jan1]) = false
  ∧ (occurrences "r2" [record "r1" false jan1] ≤ 1)%nat
  ∧ occurrences "r2"
      (items (handleRealtimeChange
                {| type := INSERT; item := row "r2" false jan1; old := None |}
                (handleRealtimeChange
                   {| type := INSERT; item := row "r2" false jan1; old := None |}
                   (showing [record "r1" false jan1])))) = 1.
Proof.
  split; [reflexivity|]. split; [reflexivity|]. split; [cbn; lia|].
  destruct (remote_change_idempotent
              {| type := INSERT; item := row "r2" false jan1; old := None |}
              (showing [record "r1" false jan1])) as (_ & _ & _ & Hinsert).
  apply (Hinsert eq_refl eq_refl). cbn; lia.
Defined.

(** ** The bought and unbought views *)




(** ** Provenance *)

(** C10. A successful [updateItem] or [toggleItem] replaces every record that
    has the id, in the items as they are when the answer arrives, by the
    server row mapped field by field, with [createdBy] and [createdByName]
    undefined whatever they were; the other records stay as they are.
    [fetchItems] and [addItem] store rows mapped with both fields taken from
    the row and its joined profile. *)
Theorem edit_drops_provenance (o : Outside) (st : HookState) (itemId : string) (data : DbItem) :
  let mapped :=
    {| id := db_id data;
       listId := list_id data;
       text := db_text data;
       isBought := is_bought data;
       orderIndex := order_index data;
       version := db_version data;
       createdAt := created_at data;
       updatedAt := updated_at data;
       deletedAt := or_undefined (deleted_at data);
       quantity := or_undefined (db_quantity data);
       notes := or_undefined (db_notes data);
       createdBy := None;
       createdByName := None |} in
  (∀ updates,
     answer o _ (ItemsService.CallUpdateItem itemId updates)
     = ItemsService.mkResult (Some data) None →
     let before := items (arrived o (ItemsService.CallUpdateItem itemId updates) st) in
     let after := items (final_amid o (updateItem itemId updates) st) in
     length after = length before
     ∧ ∀ (i : nat) (old : Item), before !! i = Some old →
         after !! i = Some (if String.eqb (id old) itemId then mapped else old))
  ∧ (∀ isBought,
       answer o _ (ItemsService.CallToggleItemBought itemId isBought)
       = ItemsService.mkResult (Some data) None →
       let before := items (arrived o (ItemsService.CallToggleItemBought itemId isBought)
                                    (with_performing true st)) in
       let after := items (final_amid o (toggleItem itemId isBought) st) in
       length after = length before
       ∧ ∀ (i : nat) (old : Item), before !! i = Some old →
           after !! i = Some (if String.eqb (id old) itemId then mapped else old))
  ∧ (createdBy mapped = None ∧ createdByName mapped = None)
  ∧ (∀ listId rows,
       listId ≠ "" →
       answer o _ (ItemsService.CallGetListItems listId)
       = ItemsService.mkResult (Some rows) None →
       items (final_amid o (fetchItems listId) st) = map mapFetchedItem rows)
  ∧ (∀ listId text quantity notes currentUserName,
       listId ≠ "" →
       let call := ItemsService.CallCreateItem
                     {| ItemsService.c_listId := listId;
                        ItemsService.c_text := text;
                        ItemsService.c_quantity := quantity;
                        ItemsService.c_notes := notes;
                        ItemsService.c_orderIndex := Z.of_nat (length (items st)) |} in
       answer o _ call = ItemsService.mkResult (Some data) None →
       last (items (final_amid o (addItem listId text quantity notes currentUserName) st))
       = Some (newItem data currentUserName))
  ∧ (∀ (creator name : string) (row : DbItem),
       creator ≠ "" → name ≠ "" →
       created_by row = Some creator →
       profiles row ≫= display_name = Some name →
       (createdBy (mapFetchedItem row) = Some creator
        ∧ createdByName (mapFetchedItem row) = Some name)
       ∧ (∀ currentUserName,
            createdBy (newItem row currentUserName) = Some creator
            ∧ createdByName (newItem row currentUserName) = Some name)).
Proof.
  intros mapped.
  assert (Hmapped : mapItem data = mapped) by reflexivity.
  split.
  { intros updates Hok before after.
    assert (after = map (λ item, if String.eqb (id item) itemId then mapped else item)
                        before) as ->.
    { subst after before. unfold final_amid, updateItem. cbn. by rewrite Hok. }
    split; [by rewrite length_map|].
    intros i old Hold. by rewrite list_lookup_fmap, Hold. }
  split.
  { intros isBought Hok before after.
    assert (after = map (λ item, if String.eqb (id item) itemId then mapped else item)
                        before) as ->.
    { subst after before. unfold final_amid, toggleItem. cbn. by rewrite Hok. }
    split; [by rewrite length_map|].
    intros i old Hold. by rewrite list_lookup_fmap, Hold. }
  split; [done|].
  split.
  { intros listId rows HlistId Hok.
    unfold final_amid, fetchItems. rewrite (falsy_false _ HlistId). cbn. by rewrite Hok. }
  split.
  { intros listId text quantity notes currentUserName HlistId call Hok.
    unfold final_amid, addItem. rewrite (falsy_false _ HlistId). cbn. fold call.
    rewrite Hok. cbn. apply last_snoc. }
  intros creator name row Hcreator Hname Hby Hprofile.
  unfold mapFetchedItem, newItem. cbn. rewrite Hby, Hprofile.
  unfold or_else, or_undefined.
  apply String.eqb_neq in Hcreator, Hname. by rewrite Hcreator, Hname.
Qed.

Lemma edit_drops_provenance_witness :
  answer (answering_amid (row "r1" true jan2) [] [TimerFired]) _
         (ItemsService.CallToggleItemBought "r1" true)
  = ItemsService.mkResult (Some (row "r1" true jan2)) None
  ∧ createdBy (record "r1" false jan1) = Some "u1"
  ∧ createdBy
      <$> items (final_amid (answering_amid (row "r1" true jan2) [] [TimerFired])
                            (toggleItem "r1" true) (showing [record "r1" false jan1]))
          !! 0%nat
    = Some None.
Proof.
  split; [reflexivity|]. split; [reflexivity|].
  destruct (edit_drops_provenance (answering_amid (row "r1" true jan2) [] [TimerFired])
              (showing [record "r1" false jan1]) "r1" (row "r1" true jan2))
    as (_ & Htoggle & _).
  destruct (Htoggle true eq_refl) as [_ Hnew].
  rewrite (Hnew 0%nat (record "r1" false jan1) eq_refl). reflexivity.
Defined.

(** ** The subscription registry *)

Section Registry.

Lemma topic_inj (a b : string) :
  String.append "list-items-" a = String.append "list-items-" b → a = b.
Proof. cbv [String.append]. by intros [= ->]. Qed.

Lemma registry_ok_empty : registry_ok empty_registry.
Proof.
  split; cbn.
  - constructor.
  - intros c. split; [by intros ?%elem_of_nil|]. by intros [listId ?].
  - by intros listId c.
Qed.

(** An open channel was created before the next fresh one. *)
Lemma open_ref_lt (r : Registry) (c : RealtimeChannel) :
  registry_ok r → c ∈ open_channels r → channel_ref c < next_ref r.
Proof.
  intros Hok Hc. apply (open_registered r Hok) in Hc as [listId Hc].
  by apply (registered_topic r Hok) in Hc as [_ ?].
Qed.

(** A channel is registered under one list only. *)
Lemma registered_once (r : Registry) (a b : string) (c : RealtimeChannel) :
  registry_ok r → channels r !! a = Some c → channels r !! b = Some c → a = b.
Proof.
  intros Hok Ha Hb.
  apply (registered_topic r Hok) in Ha as [Ha _], Hb as [Hb _].
  apply topic_inj. by rewrite <- Ha, <- Hb.
Qed.

Lemma subscribe_ok (listId : string) (r : Registry) :
  registry_ok r → registry_ok (subscribeToListItems listId r).1.
Proof.
  intros Hok. unfold subscribeToListItems.
  destruct (channels r !! listId) as [existing|] eqn:Hlookup; [done|].
  split; cbn.
  - apply NoDup_app. split; [apply (open_nodup r Hok)|]. split; [|apply NoDup_singleton].
    intros c Hc ->%list_elem_of_singleton.
    apply (open_ref_lt r _ Hok) in Hc. cbn in Hc. lia.
  - intros c. rewrite elem_of_app, list_elem_of_singleton, (open_registered r Hok). split.
    + intros [[other Hother]| ->].
      * exists other. rewrite lookup_insert_ne; [done|]. by intros <-; simplify_eq.
      * exists listId. by rewrite lookup_insert_eq.
    + intros [other Hother]. destruct (decide (listId = other)) as [<-|Hne].
      * rewrite lookup_insert_eq in Hother. right. by simplify_eq.
      * rewrite lookup_insert_ne in Hother by done. left. by exists other.
  - intros other c Hother. destruct (decide (listId = other)) as [<-|Hne].
    + rewrite lookup_insert_eq in Hother. simplify_eq. cbn. split; [done|lia].
    + rewrite lookup_insert_ne in Hother by done.
      apply (registered_topic r Hok) in Hother as [? ?]. split; [done|lia].
Qed.

Lemma unsubscribe_ok (listId : string) (r : Registry) :
  registry_ok r → registry_ok (unsubscribeFromListItems listId r).
Proof.
  intros Hok. unfold unsubscribeFromListItems.
  destruct (channels r !! listId) as [channel|] eqn:Hlookup; [|done].
  split; cbn.
  - apply NoDup_filter, (open_nodup r Hok).
  - intros c. unfold removeChannel.
    rewrite list_elem_of_filter, (open_registered r Hok). split.
    + intros [Hne [other Hother]]. exists other.
      rewrite lookup_delete_ne; [done|]. intros <-. by simplify_eq.
    + intros [other [Hne Hother]%lookup_delete_Some]. split; [|by exists other].
      intros ->. apply Hne. by eapply registered_once.
  - intros other c [_ Hother]%lookup_delete_Some.
    by apply (registered_topic r Hok).
Qed.

(** Removing every registered channel leaves the open channels that are
    registered nowhere. *)
Lemma remove_registered (m : gmap string RealtimeChannel) (l : list RealtimeChannel)
    (c : RealtimeChannel) :
  c ∈ map_fold (λ _ channel acc, removeChannel channel acc) l m
  ↔ c ∈ l ∧ ∀ listId, m !! listId ≠ Some c.
Proof.
  apply (map_fold_weak_ind
           (λ acc m, c ∈ acc ↔ c ∈ l ∧ ∀ listId, m !! listId ≠ Some c)).
  { split; [|by intros [? _]]. intros Hc. split; [done|]. intros listId.
    by rewrite lookup_empty. }
  clear m. intros listId channel m acc Hfresh IH.
  unfold removeChannel. rewrite list_elem_of_filter, IH. split.
  - intros (Hne & Hc & Hnone). split; [done|]. intros other.
    destruct (decide (listId = other)) as [<-|Hother].
    + rewrite lookup_insert_eq. by intros [= ->].
    + by rewrite lookup_insert_ne.
  - intros (Hc & Hnone). split; [|split; [done|]].
    + intros ->. apply (Hnone listId). by rewrite lookup_insert_eq.
    + intros other Hother. apply (Hnone other).
      rewrite lookup_insert_ne; [done|]. intros <-. by rewrite Hfresh in Hother.
Qed.

Lemma unsubscribeAll_closes (r : Registry) :
  registry_ok r → open_channels (unsubscribeAll r) = [].
Proof.
  intros Hok. cbn. apply elem_of_nil_inv. intros c [Hc Hnone]%remove_registered.
  apply (open_registered r Hok) in Hc as [listId Hc]. by apply (Hnone listId).
Qed.

Lemma unsubscribeAll_ok (r : Registry) :
  registry_ok r → registry_ok (unsubscribeAll r).
Proof.
  intros Hok. split.
  - rewrite unsubscribeAll_closes by done. constructor.
  - intros c. rewrite unsubscribeAll_closes by done. cbn. split.
    + by intros ?%elem_of_nil.
    + intros [listId Hc]. by rewrite lookup_empty in Hc.
  - intros listId c. cbn. by rewrite lookup_empty.
Qed.

Lemma step_ok (o : Op) (r : Registry) : registry_ok r → registry_ok (step o r).
Proof.
  destruct o; cbn; auto using subscribe_ok, unsubscribe_ok, unsubscribeAll_ok.
Qed.

Lemma steps_ok (os : list Op) (r : Registry) : registry_ok r → registry_ok (steps os r).
Proof.
  unfold steps. revert r. induction os as [|o os IH]; intros r Hok; cbn; [done|].
  apply IH. by apply step_ok.
Qed.

(** Under the invariant the client holds at most one open channel for a
    list. *)
Lemma at_most_one_channel (listId : string) (r : Registry) :
  registry_ok r → (length (channels_of listId r) ≤ 1)%nat.
Proof.
  intros Hok.
  assert (Hsame : ∀ c, In c (channels_of listId r) → channels r !! listId = Some c).
  { intros c [Hc Htopic]%filter_In. apply String.eqb_eq in Htopic.
    apply list_elem_of_In, (open_registered r Hok) in Hc as [other Hc].
    destruct (registered_topic r Hok _ _ Hc) as [Hother _].
    rewrite Hother in Htopic. by apply topic_inj in Htopic as ->. }
  assert (Hnodup : NoDup (channels_of listId r)).
  { unfold channels_of.
    apply NoDup_ListNoDup, List.NoDup_filter, NoDup_ListNoDup, (open_nodup r Hok). }
  destruct (channels_of listId r) as [|a [|b rest]]; cbn; [lia|lia|].
  exfalso. apply NoDup_cons in Hnodup as [Hnotin _]. apply Hnotin.
  assert (a = b) as ->; [|by left].
  assert (Some a = Some b) as [= ->]; [|done].
  rewrite <- (Hsame a), <- (Hsame b); [done|right; by left|by left].
Qed.

End Registry.

(** C8. In every state the registry reaches from the empty one by
    [subscribeToListItems], [unsubscribeFromListItems] and [unsubscribeAll],
    the channels map and the open channels of the client agree, and the client
    holds at most one open channel per list. Subscribing to a list that has a
    channel returns that channel and changes nothing; subscribing to a list
    that has none opens exactly one channel and registers it. Every operation
    keeps the invariant. *)
Theorem one_channel_per_list (os : list Op) :
  let r := steps os empty_registry in
  registry_ok r
  ∧ (∀ listId, (length (channels_of listId r) ≤ 1)%nat)
  ∧ (∀ listId existingChannel,
       channels r !! listId = Some existingChannel →
       subscribeToListItems listId r = (r, existingChannel)
       ∧ channels_of listId r = [existingChannel])
  ∧ (∀ listId,
       channels r !! listId = None →
       let '(r', channel) := subscribeToListItems listId r in
       channels r' = <[listId := channel]> (channels r)
       ∧ open_channels r' = open_channels r ++ [channel]
       ∧ channels_of listId r = []
       ∧ channels_of listId r' = [channel])
  ∧ (∀ o, registry_ok (step o r)
          ∧ ∀ listId, (length (channels_of listId (step o r)) ≤ 1)%nat).
Proof.
  intros r.
  assert (Hok : registry_ok r) by apply steps_ok, registry_ok_empty.
  assert (Hnone : ∀ listId, channels r !! listId = None → channels_of listId r = []).
  { intros listId Hlookup.
    destruct (channels_of listId r) as [|c rest] eqn:Hof; [done|]. exfalso.
    assert (In c (channels_of listId r)) as [Hc Htopic]%filter_In
      by (rewrite Hof; by left).
    apply String.eqb_eq in Htopic.
    apply list_elem_of_In, (open_registered r Hok) in Hc as [other Hc].
    destruct (registered_topic r Hok _ _ Hc) as [Hother _].
    rewrite Hother in Htopic. apply topic_inj in Htopic as ->. by rewrite Hlookup in Hc. }
  split; [done|].
  split; [intros; by apply at_most_one_channel|].
  split.
  { intros listId existingChannel Hlookup. split.
    - unfold subscribeToListItems. by rewrite Hlookup.
    - pose proof (at_most_one_channel listId r Hok) as Hlen.
      assert (In existingChannel (channels_of listId r)) as Hin.
      { apply filter_In. split.
        - apply list_elem_of_In, (open_registered r Hok). by exists listId.
        - apply String.eqb_eq. by apply (registered_topic r Hok). }
      destruct (channels_of listId r) as [|c [|c' rest]]; cbn in *; [done| |lia].
      by destruct Hin as [->|[]]. }
  split.
  { intros listId Hlookup. unfold subscribeToListItems. rewrite Hlookup.
    split; [done|]. split; [done|]. split; [by apply Hnone|].
    unfold channels_of. cbn. rewrite List.filter_app. cbn.
    rewrite String.eqb_refl.
    change (List.filter _ (open_channels r)) with (channels_of listId r).
    by rewrite Hnone. }
  intros o. split; [by apply step_ok|].
  intros listId. by apply at_most_one_channel, step_ok.
Qed.

Lemma one_channel_per_list_witness :
  channels (steps [OpSubscribe "l1"; OpSubscribe "l2"; OpUnsubscribe "l2"] empty_registry)
    !! "l1" = Some {| topic := "list-items-l1"; channel_ref := 0 |}
  ∧ subscribeToListItems "l1"
      (steps [OpSubscribe "l1"; OpSubscribe "l2"; OpUnsubscribe "l2"] empty_registry)
    = (steps [OpSubscribe "l1"; OpSubscribe "l2"; OpUnsubscribe "l2"] empty_registry,
       {| topic := "list-items-l1"; channel_ref := 0 |}).
Proof.
  split; [vm_compute; reflexivity|].
  apply (one_channel_per_list [OpSubscribe "l1"; OpSubscribe "l2"; OpUnsubscribe "l2"]).
  vm_compute; reflexivity.
Defined.

(** ** Reordering *)

Section Reorder.








End Reorder.



(** * Further properties of the hook *)

Import Scenarios.

Section HookEdges.


Lemma replace_absent (itemId : string) (new : Item) (l : list Item) :
  occurrences itemId l = 0 →
  map (λ item, if String.eqb (id item) itemId then new else item) l = l.
Proof.
  unfold occurrences. induction l as [|y l IH]; [done|]. cbn.
  destruct (String.eqb (id y) itemId); [done|].
  intros Hl. by rewrite IH.
Qed.

Lemma replace_twice (itemId : string) (new : Item) (l : list Item) :
  id new = itemId →
  map (λ item, if String.eqb (id item) itemId then new else item)
      (map (λ item, if String.eqb (id item) itemId then new else item) l)
  = map (λ item, if String.eqb (id item) itemId then new else item) l.
Proof.
  intros Hnew. rewrite map_map. apply map_ext. intros y.
  destruct (String.eqb (id y) itemId) eqn:Hy; [|by rewrite Hy].
  by rewrite Hnew, String.eqb_refl.
Qed.

Lemma with_items_same (st : HookState) (l : list Item) :
  l = items st → with_items (λ _, l) st = st.
Proof. intros ->. by destruct st. Qed.

End HookEdges.

(** X1. Without a list id, [fetchItems], [addItem] and [clearBoughtItems]
    return at once: nothing is requested and the state, the loading flag
    included, is left as it is. [reorderItems] does send its request; when
    that fails, the reload it falls back on returns at once too, so the items
    stay in the order given and nothing is loaded. *)
Theorem unbound_list_requests_nothing (w : World) (st : HookState) :
  run w (fetchItems "") st = ([], st, ())
  ∧ (∀ text quantity notes currentUserName,
       run w (addItem "" text quantity notes currentUserName) st = ([], st, ()))
  ∧ run w (clearBoughtItems "") st = ([], st, ())
  ∧ (∀ reorderedItems reorderError,
       respond w _ (ItemsService.CallReorderItems (orderUpdates reorderedItems))
       = Some reorderError →
       loads (trace w (reorderItems "" reorderedItems) st) = []
       ∧ final w (reorderItems "" reorderedItems) st
         = with_error (Some reorderError)
             (deliver (feed w _ (ItemsService.CallReorderItems (orderUpdates reorderedItems)))
                      (with_items (λ _, reorderedItems) st))).
Proof.
  split; [done|]. split; [done|]. split; [done|].
  intros reorderedItems reorderError Hfail.
  unfold trace, final, reorderItems. cbn. by rewrite Hfail.
Qed.

Lemma unbound_list_requests_nothing_witness :
  respond (failing "boom") _
    (ItemsService.CallReorderItems (orderUpdates [record "r2" false jan1; record "r1" false jan1]))
  = Some "boom"
  ∧ items (final (failing "boom")
                 (reorderItems "" [record "r2" false jan1; record "r1" false jan1])
                 (showing [record "r1" false jan1; record "r2" false jan1]))
    = [record "r2" false jan1; record "r1" false jan1].
Proof.
  split; [reflexivity|].
  destruct (unbound_list_requests_nothing (failing "boom")
              (showing [record "r1" false jan1; record "r2" false jan1]))
    as (_ & _ & _ & Hreorder).
  destruct (Hreorder [record "r2" false jan1; record "r1" false jan1] "boom" eq_refl)
    as [_ ->].
  reflexivity.
Defined.

(** X2. A successful [fetchItems] replaces the items by the mapped rows, in
    the order of the rows, clears the error and the loading flag: what the
    hook held before and what the change feed applied while the load was
    awaited have no influence on the items. *)
Theorem load_overwrites_items_and_arrivals
    (w1 w2 : World) (st1 st2 : HookState) (listId : string) :
  listId ≠ "" →
  respond w1 _ (ItemsService.CallGetListItems listId)
  = respond w2 _ (ItemsService.CallGetListItems listId) →
  ItemsService.error (respond w1 _ (ItemsService.CallGetListItems listId)) = None →
  let rows := default [] (ItemsService.data (respond w1 _ (ItemsService.CallGetListItems listId))) in
  items (final w1 (fetchItems listId) st1) = items (final w2 (fetchItems listId) st2)
  ∧ map id (items (final w1 (fetchItems listId) st1)) = map db_id rows
  ∧ error (final w1 (fetchItems listId) st1) = None
  ∧ loading (final w1 (fetchItems listId) st1) = false.
Proof.
  intros HlistId Hsame Hok rows.
  assert (Hfinal : ∀ w st,
            respond w _ (ItemsService.CallGetListItems listId)
            = respond w1 _ (ItemsService.CallGetListItems listId) →
            final w (fetchItems listId) st
            = with_loading false
                (with_items (λ _, map mapFetchedItem rows)
                   (deliver (feed w _ (ItemsService.CallGetListItems listId))
                            (with_error None (with_loading true st))))).
  { intros w st Hw. unfold final, fetchItems. rewrite (falsy_false _ HlistId). cbn.
    by rewrite Hw, Hok. }
  rewrite (Hfinal w1 st1 eq_refl), (Hfinal w2 st2 (eq_sym Hsame)). cbn.
  split; [done|]. split.
  { rewrite map_map. by apply map_ext. }
  split; [|done].
  by destruct (deliver_frame (feed w1 _ (ItemsService.CallGetListItems listId))
                 (with_error None (with_loading true st1))) as (_ & -> & _).
Qed.

Lemma load_overwrites_items_and_arrivals_witness :
  "l1" ≠ ""
  ∧ items (final (answering (row "r1" false jan1) [row "r2" true jan2]
                            [{| type := INSERT; item := row "r9" false jan1; old := None |}])
                 (fetchItems "l1") (showing [record "r1" false jan1]))
    = items (final (answering (row "r1" false jan1) [row "r2" true jan2] [])
                   (fetchItems "l1") (showing [])).
Proof.
  split; [discriminate|].
  apply (load_overwrites_items_and_arrivals
           (answering (row "r1" false jan1) [row "r2" true jan2]
                      [{| type := INSERT; item := row "r9" false jan1; old := None |}])
           (answering (row "r1" false jan1) [row "r2" true jan2] [])
           (showing [record "r1" false jan1]) (showing []) "l1").
  - discriminate.
  - reflexivity.
  - reflexivity.
Defined.

(** X3. When [reorderItems] fails, the error it sets does not survive the
    reload it starts: [fetchItems] clears the error before it awaits, so the
    error left at the end is the one of the load, none when the load
    succeeds. *)
Theorem reorder_error_is_overwritten_by_reload
    (w : World) (st : HookState) (listId : string) (reorderedItems : list Item)
    (reorderError : Error) :
  listId ≠ "" →
  respond w _ (ItemsService.CallReorderItems (orderUpdates reorderedItems))
  = Some reorderError →
  let loaded := respond w _ (ItemsService.CallGetListItems listId) in
  let after := final w (reorderItems listId reorderedItems) st in
  error after = ItemsService.error loaded
  ∧ loading after = false
  ∧ items after
    = match ItemsService.error loaded with
      | Some _ => []
      | None => map mapFetchedItem (default [] (ItemsService.data loaded))
      end.
Proof.
  intros HlistId Hfail loaded after. subst after.
  unfold final, reorderItems, fetchItems. cbn. rewrite Hfail.
  rewrite (falsy_false _ HlistId). cbn. fold loaded.
  destruct (ItemsService.error loaded); cbn; [done|].
  split; [|done]. by rewrite (proj1 (proj2 (deliver_frame _ _))).
Qed.

Lemma reorder_error_is_overwritten_by_reload_witness :
  "l1" ≠ ""
  ∧ error (final (refusing_reorder "boom" [row "r1" false jan1])
                 (reorderItems "l1" [record "r1" false jan1])
                 (showing [record "r1" false jan1])) = None.
Proof.
  split; [discriminate|].
  apply (reorder_error_is_overwritten_by_reload
           (refusing_reorder "boom" [row "r1" false jan1])
           (showing [record "r1" false jan1]) "l1" [record "r1" false jan1] "boom").
  - discriminate.
  - reflexivity.
Defined.

(** X4. [addItem] appends the created row to the items as they are when the
    answer arrives, without looking for its id: the number of records with
    that id rises by one from what it is at that moment. So the add run alone,
    only change-feed events arriving while it waits, ends with the items it
    started with and the new record; an insert event with the id of the
    created row that arrives after the add changes nothing, neither while the
    flag is set nor after the timer has cleared it; but when the timer of an
    earlier operation clears the flag while the add waits and the insert
    event follows, the event is applied, the add appends again, and a list
    that had no record with the id ends with two. *)
Theorem add_appends_without_looking
    (o : Outside) (st : HookState) (listId text : string) (quantity notes : option string)
    (currentUserName : option string) (data : DbItem) :
  listId ≠ "" →
  let call := ItemsService.CallCreateItem
                {| ItemsService.c_listId := listId;
                   ItemsService.c_text := text;
                   ItemsService.c_quantity := quantity;
                   ItemsService.c_notes := notes;
                   ItemsService.c_orderIndex := Z.of_nat (length (items st)) |} in
  answer o _ call = ItemsService.mkResult (Some data) None →
  let then_ := arrived o call (with_performing true st) in
  let after := final_amid o (addItem listId text quantity notes currentUserName) st in
  items after = items then_ ++ [newItem data currentUserName]
  ∧ occurrences (db_id data) (items after) = S (occurrences (db_id data) (items then_))
  ∧ (∀ changes, meanwhile o _ call = map Changed changes →
       items after = items st ++ [newItem data currentUserName])
  ∧ (∀ echo, type echo = INSERT → db_id (item echo) = db_id data →
       handleRealtimeChange echo after = after
       ∧ handleRealtimeChange echo (timeout_fired after) = timeout_fired after)
  ∧ (∀ echo, type echo = INSERT → db_id (item echo) = db_id data →
       meanwhile o _ call = [TimerFired; Changed echo] →
       occurrences (db_id data) (items st) = 0%nat →
       items after = items st ++ [mapItem (item echo); newItem data currentUserName]
       ∧ occurrences (db_id data) (items after) = 2%nat).
Proof.
  intros HlistId call Hok then_ after.
  assert (Hafter : after = with_items (λ prev, prev ++ [newItem data currentUserName]) then_).
  { subst after then_. unfold final_amid, addItem. rewrite (falsy_false _ HlistId). cbn.
    fold call. by rewrite Hok. }
  assert (Hitems : items after = items then_ ++ [newItem data currentUserName]).
  { by rewrite Hafter. }
  assert (Hnew : occurrences (db_id data) [newItem data currentUserName] = 1%nat).
  { unfold occurrences. cbn. by rewrite String.eqb_refl. }
  assert (Hpresent : existsb (λ item, String.eqb (id item) (db_id data)) (items after) = true).
  { rewrite Hitems, existsb_app. cbn. by rewrite String.eqb_refl, orb_true_r. }
  split; [done|]. split.
  { rewrite Hitems, occurrences_app, Hnew. lia. }
  split.
  { intros changes Honly. rewrite Hitems. subst then_. unfold arrived.
    by rewrite Honly, befallen_events, deliver_performing. }
  split.
  - intros echo Htype Hid.
    assert (Hskip : applyChange echo (items after) = items after).
    { unfold applyChange. rewrite Htype.
      change (id (mapItem (item echo))) with (db_id (item echo)).
      by rewrite Hid, Hpresent. }
    split.
    + unfold handleRealtimeChange. destruct (isPerformingOperation after); [done|].
      unfold with_items at 1. rewrite Hskip. by destruct after.
    + unfold handleRealtimeChange, timeout_fired.
      unfold with_performing at 1. cbn [isPerformingOperation].
      unfold with_items at 1. unfold with_performing at 1. cbn [items].
      rewrite Hskip. by destruct after.
  - intros echo Htype Hid Hmeanwhile Habsent.
    assert (Hthen : items then_ = items st ++ [mapItem (item echo)]).
    { subst then_. unfold arrived. rewrite Hmeanwhile. cbn.
      unfold applyChange. rewrite Htype.
      change (id (mapItem (item echo))) with (db_id (item echo)).
      by rewrite Hid, existsb_occurrences, Habsent. }
    rewrite Hitems, Hthen, <- app_assoc. split; [done|].
    rewrite occurrences_app, Habsent. unfold occurrences. cbn.
    change (id (mapItem (item echo))) with (db_id (item echo)).
    by rewrite Hid, String.eqb_refl.
Qed.

Lemma add_appends_without_looking_witness :
  "l1" ≠ ""
  ∧ items (final_amid
             (answering_amid (row "r9" false jan1) []
                [TimerFired;
                 Changed {| type := INSERT; item := row "r9" false jan1; old := None |}])
             (addItem "l1" "Milk" None None None) (showing []))
    = [mapItem (row "r9" false jan1); newItem (row "r9" false jan1) None].
Proof.
  split; [discriminate|].
  destruct (add_appends_without_looking
              (answering_amid (row "r9" false jan1) []
                 [TimerFired;
                  Changed {| type := INSERT; item := row "r9" false jan1; old := None |}])
              (showing []) "l1" "Milk" None None None (row "r9" false jan1))
    as (_ & _ & _ & _ & Htwice); [discriminate|reflexivity|].
  exact (proj1 (Htwice {| type := INSERT; item := row "r9" false jan1; old := None |}
                  eq_refl eq_refl eq_refl eq_refl)).
Defined.

(** X5. After a successful [toggleItem] or [updateItem] whose answer is the
    row of the record, the update event that carries the same row changes
    nothing, also once the flag is clear: the echo of an own edit is harmless
    even when it arrives after the guard window. *)
Theorem own_update_echo_changes_nothing
    (w : World) (st : HookState) (itemId : string) (data : DbItem) (echo : ItemChange) :
  db_id data = itemId →
  type echo = UPDATE →
  item echo = data →
  (∀ isBought,
     respond w _ (ItemsService.CallToggleItemBought itemId isBought)
     = ItemsService.mkResult (Some data) None →
     let after := final w (toggleItem itemId isBought) st in
     handleRealtimeChange echo (timeout_fired after) = timeout_fired after)
  ∧ (∀ updates,
       respond w _ (ItemsService.CallUpdateItem itemId updates)
       = ItemsService.mkResult (Some data) None →
       let after := final w (updateItem itemId updates) st in
       handleRealtimeChange echo after = after).
Proof.
  intros Hid Htype Hitem.
  assert (Hecho : ∀ l,
            applyChange echo
              (map (λ item, if String.eqb (id item) itemId then mapItem data else item) l)
            = map (λ item, if String.eqb (id item) itemId then mapItem data else item) l).
  { intros l. unfold applyChange. rewrite Htype, Hitem.
    change (id (mapItem data)) with (db_id data). rewrite Hid.
    by apply replace_twice. }
  split.
  - intros isBought Hok after.
    assert (after = with_items
                      (map (λ item, if String.eqb (id item) itemId then mapItem data else item))
                      (with_performing true st)) as ->.
    { subst after. unfold final, toggleItem. cbn. rewrite Hok. cbn.
      by rewrite deliver_performing. }
    unfold handleRealtimeChange, timeout_fired. cbn. unfold with_items. cbn.
    by rewrite Hecho.
  - intros updates Hok after.
    assert (after = with_items
                      (map (λ item, if String.eqb (id item) itemId then mapItem data else item))
                      (deliver (feed w _ (ItemsService.CallUpdateItem itemId updates)) st))
      as ->.
    { subst after. unfold final, updateItem. cbn. by rewrite Hok. }
    unfold handleRealtimeChange. cbn.
    destruct (isPerformingOperation _); [done|].
    unfold with_items. cbn. by rewrite Hecho.
Qed.

Lemma own_update_echo_changes_nothing_witness :
  db_id (row "r1" true jan2) = "r1"
  ∧ handleRealtimeChange
      {| type := UPDATE; item := row "r1" true jan2; old := None |}
      (timeout_fired (final (answering (row "r1" true jan2) [] []) (toggleItem "r1" true)
                            (showing [record "r1" false jan1; record "r2" false jan1])))
    = timeout_fired (final (answering (row "r1" true jan2) [] []) (toggleItem "r1" true)
                           (showing [record "r1" false jan1; record "r2" false jan1])).
Proof.
  split; [reflexivity|].
  destruct (own_update_echo_changes_nothing (answering (row "r1" true jan2) [] [])
              (showing [record "r1" false jan1; record "r2" false jan1])
              "r1" (row "r1" true jan2)
              {| type := UPDATE; item := row "r1" true jan2; old := None |}
              eq_refl eq_refl eq_refl) as [Htoggle _].
  exact (Htoggle true eq_refl).
Defined.



(** X7. An edit of a record that is not among the items is ignored: when no
    record has the id, a successful [updateItem] or [toggleItem] leaves the
    items as they are when the answer arrives; the row returned is not
    added. *)
Theorem edit_of_absent_record_adds_nothing
    (w : World) (st : HookState) (itemId : string) (data : DbItem) :
  (∀ updates,
     respond w _ (ItemsService.CallUpdateItem itemId updates)
     = ItemsService.mkResult (Some data) None →
     let arrived := deliver (feed w _ (ItemsService.CallUpdateItem itemId updates)) st in
     occurrences itemId (items arrived) = 0 →
     final w (updateItem itemId updates) st = arrived)
  ∧ (∀ isBought,
       respond w _ (ItemsService.CallToggleItemBought itemId isBought)
       = ItemsService.mkResult (Some data) None →
       occurrences itemId (items st) = 0 →
       items (final w (toggleItem itemId isBought) st) = items st).
Proof.
  split.
  - intros updates Hok arrived Habsent.
    unfold final, updateItem. cbn. rewrite Hok. cbn. fold arrived.
    unfold with_items. rewrite replace_absent by done. by destruct arrived.
  - intros isBought Hok Habsent.
    unfold final, toggleItem. cbn. rewrite Hok. cbn.
    rewrite deliver_performing by done. cbn. by apply replace_absent.
Qed.

Lemma edit_of_absent_record_adds_nothing_witness :
  occurrences "r9" [record "r1" false jan1] = 0
  ∧ items (final (answering (row "r9" true jan2) [] []) (toggleItem "r9" true)
                 (showing [record "r1" false jan1]))
    = [record "r1" false jan1].
Proof.
  split; [reflexivity|].
  destruct (edit_of_absent_record_adds_nothing (answering (row "r9" true jan2) [] [])
              (showing [record "r1" false jan1]) "r9" (row "r9" true jan2))
    as [_ Htoggle].
  exact (Htoggle true eq_refl eq_refl).
Defined.

(** * Properties of the list screen *)

(** X8. The screen hands [reorderItems] a rearrangement of the unbought view
    only, and the hook takes the list it is given for the whole of its items:
    from the moment the drag is dropped the bought records are gone from the
    items, the bought view is empty, and the unbought view is the
    rearrangement. When the request succeeds and no event arrives, this is the
    state the hook is left in; nothing is reloaded. *)
Theorem screen_reorder_forgets_bought_records
    (w : World) (st : HookState) (listId : string)
    (moved : list Item → nat → nat → list Item) (from to : nat) :
  Permutation (moved (unboughtItems st) from to) (unboughtItems st) →
  let call := ItemsService.CallReorderItems (orderUpdates (moved (unboughtItems st) from to)) in
  ∃ seen,
    first_call (trace w (ListScreen.handleReorder listId moved from to st) st) = Some seen
    ∧ boughtItems seen = []
    ∧ unboughtItems seen = moved (unboughtItems st) from to
    ∧ length (items seen) + length (boughtItems st) = length (items st)
    ∧ (respond w _ call = None → feed w _ call = [] →
       final w (ListScreen.handleReorder listId moved from to st) st = seen
       ∧ trace w (ListScreen.handleReorder listId moved from to st) st = [ObsCall call seen]).
Proof.
  intros Hperm call.
  exists (with_items (λ _, moved (unboughtItems st) from to) st).
  assert (Hunbought : ∀ it, In it (moved (unboughtItems st) from to) → isBought it = false).
  { intros it Hit. apply (Permutation_in _ Hperm) in Hit.
    apply filter_In in Hit as [_ Hit]. by apply negb_true_iff. }
  split; [done|]. split.
  { unfold boughtItems. cbn.
    destruct (List.filter _ _) as [|it rest] eqn:Hfilter; [done|]. exfalso.
    assert (In it (List.filter (λ item, isBought item) (moved (unboughtItems st) from to)))
      as [Hit Hbought]%filter_In by (rewrite Hfilter; by left).
    apply Hunbought in Hit. congruence. }
  split.
  { unfold unboughtItems at 1. cbn. apply filter_none.
    intros it Hit. by rewrite (Hunbought it Hit). }
  split.
  { cbn. rewrite (Permutation_length Hperm).
    rewrite <- (Permutation_length (filter_split_perm isBought (items st))).
    by rewrite length_app. }
  intros Hok Hquiet.
  unfold final, trace, ListScreen.handleReorder, reorderItems. cbn. fold call.
  by rewrite Hok, Hquiet.
Qed.

Lemma screen_reorder_forgets_bought_records_witness :
  Permutation
    (move (unboughtItems (showing [record "a" false jan1; record "x" true jan1;
                                   record "b" false jan1])) 1 0)
    (unboughtItems (showing [record "a" false jan1; record "x" true jan1;
                             record "b" false jan1]))
  ∧ ∃ seen,
      first_call (trace (answering (row "a" false jan1) [] [])
                        (ListScreen.handleReorder "l1" move 1 0
                           (showing [record "a" false jan1; record "x" true jan1;
                                     record "b" false jan1]))
                        (showing [record "a" false jan1; record "x" true jan1;
                                  record "b" false jan1])) = Some seen
      ∧ boughtItems seen = [].
Proof.
  assert (Hperm : Permutation
            (move (unboughtItems (showing [record "a" false jan1; record "x" true jan1;
                                           record "b" false jan1])) 1 0)
            (unboughtItems (showing [record "a" false jan1; record "x" true jan1;
                                     record "b" false jan1]))).
  { cbn. apply perm_swap. }
  split; [exact Hperm|].
  destruct (screen_reorder_forgets_bought_records (answering (row "a" false jan1) [] [])
              (showing [record "a" false jan1; record "x" true jan1; record "b" false jan1])
              "l1" move 1 0 Hperm) as (seen & Hseen & Hbought & _).
  exists seen. by split.
Defined.

(** X9. [handleAddItem] asks for the other members to be notified whenever a
    list and a user are set, with the part of the user's e-mail before the
    [@] as the name: the request does not depend on how [addItem] went, and
    is made also when the creation failed and the items are unchanged. *)
Theorem add_notifies_whatever_the_outcome
    (w : World) (st : HookState) (listId listName text : string)
    (quantity : option string) (user : ListScreen.User) :
  listId ≠ "" →
  let call := ItemsService.CallCreateItem
                {| ItemsService.c_listId := listId;
                   ItemsService.c_text := text;
                   ItemsService.c_quantity := quantity;
                   ItemsService.c_notes := None;
                   ItemsService.c_orderIndex := Z.of_nat (length (items st)) |} in
  let handled := ListScreen.handleAddItem (Some listId) (Some user) listName text quantity w st in
  handled.2
  = Some {| ListScreen.n_listId := listId;
            ListScreen.n_currentUserId := ListScreen.user_id user;
            ListScreen.n_currentUserName := ListScreen.displayName user;
            ListScreen.n_itemText := text;
            ListScreen.n_listName := listName |}
  ∧ (∃ rest, handled.1.1 = ObsCall call (with_performing true st) :: rest)
  ∧ (∀ createError,
       ItemsService.error (respond w _ call) = Some createError →
       items handled.1.2 = items st ∧ error handled.1.2 = Some createError).
Proof.
  intros HlistId call handled. subst handled. unfold ListScreen.handleAddItem. cbn.
  pose proof (falsy_false _ HlistId) as Hfalsy. unfold falsy in Hfalsy.
  split; [by rewrite Hfalsy|].
  unfold addItem. rewrite (falsy_false _ HlistId). cbn. fold call.
  split; [by eexists|].
  intros createError Hfail. rewrite Hfail. cbn.
  by rewrite deliver_performing.
Qed.

Lemma add_notifies_whatever_the_outcome_witness :
  "l1" ≠ ""
  ∧ (ListScreen.handleAddItem (Some "l1")
       (Some {| ListScreen.user_id := "u1"; ListScreen.user_email := Some "ann@example.org" |})
       "Groceries" "Milk" None (failing "boom") (showing [])).2
    = Some {| ListScreen.n_listId := "l1"; ListScreen.n_currentUserId := "u1";
              ListScreen.n_currentUserName := "ann"; ListScreen.n_itemText := "Milk";
              ListScreen.n_listName := "Groceries" |}.
Proof.
  split; [discriminate|].
  apply (add_notifies_whatever_the_outcome (failing "boom") (showing []) "l1" "Groceries"
           "Milk" None
           {| ListScreen.user_id := "u1"; ListScreen.user_email := Some "ann@example.org" |}).
  discriminate.
Defined.

(** * Further properties of the subscription registry *)

Section RegistryCounts.

(** Removing a channel that is open once closes exactly one channel. *)
Lemma removeChannel_length (c : RealtimeChannel) (l : list RealtimeChannel) :
  NoDup l → c ∈ l → S (length (removeChannel c l)) = length l.
Proof.
  unfold removeChannel. induction l as [|x l IH]; intros Hnodup Hc.
  - by apply elem_of_nil in Hc.
  - apply NoDup_cons in Hnodup as [Hx Hnodup].
    destruct (decide (x = c)) as [->|Hne].
    + rewrite filter_cons_False by (intros Hcc; by apply Hcc). cbn. f_equal.
      clear IH Hc. induction l as [|y l IH]; [done|].
      apply not_elem_of_cons in Hx as [Hy Hx].
      apply NoDup_cons in Hnodup as [_ Hnodup].
      rewrite filter_cons_True by done. cbn. f_equal. by apply IH.
    + rewrite filter_cons_True by done. cbn. f_equal. apply IH; [done|].
      apply elem_of_cons in Hc as [->|Hc]; done.
Qed.

Lemma removeChannel_absent (c : RealtimeChannel) (l : list RealtimeChannel) :
  c ∉ l → removeChannel c l = l.
Proof.
  unfold removeChannel. induction l as [|x l IH]; intros Hc; [done|].
  apply not_elem_of_cons in Hc as [Hx Hc].
  rewrite filter_cons_True by done. f_equal. by apply IH.
Qed.

(** Closing the channel of one list leaves the channels of every other list
    open. *)
Lemma removeChannel_other_topic (c : RealtimeChannel) (other : string)
    (l : list RealtimeChannel) :
  topic c ≠ String.append "list-items-" other →
  List.filter (λ c', String.eqb (topic c') (String.append "list-items-" other))
              (removeChannel c l)
  = List.filter (λ c', String.eqb (topic c') (String.append "list-items-" other)) l.
Proof.
  intros Htopic. unfold removeChannel. induction l as [|x l IH]; [done|].
  destruct (decide (x = c)) as [->|Hne].
  - rewrite filter_cons_False by (intros Hcc; by apply Hcc). cbn.
    by rewrite (proj2 (String.eqb_neq _ _) Htopic).
  - rewrite filter_cons_True by done. cbn. by rewrite IH.
Qed.

Lemma no_channel_none_open (listId : string) (r : Registry) :
  registry_ok r → channels r !! listId = None → channels_of listId r = [].
Proof.
  intros Hok Hlookup.
  destruct (channels_of listId r) as [|c rest] eqn:Hof; [done|]. exfalso.
  assert (In c (channels_of listId r)) as [Hc Htopic]%filter_In
    by (rewrite Hof; by left).
  apply String.eqb_eq in Htopic.
  apply list_elem_of_In, (open_registered r Hok) in Hc as [other Hc].
  destruct (registered_topic r Hok _ _ Hc) as [Hother _].
  rewrite Hother in Htopic. apply topic_inj in Htopic as ->. by rewrite Hlookup in Hc.
Qed.

Lemma count_step (o : Op) (r : Registry) :
  registry_ok r →
  getActiveSubscriptionsCount r = length (open_channels r) →
  getActiveSubscriptionsCount (step o r) = length (open_channels (step o r)).
Proof.
  unfold getActiveSubscriptionsCount. intros Hok Hcount. destruct o as [listId|listId|]; cbn.
  - unfold subscribeToListItems.
    destruct (channels r !! listId) as [existing|] eqn:Hlookup; [done|]. cbn.
    rewrite map_size_insert_None by done. rewrite length_app. cbn. lia.
  - unfold unsubscribeFromListItems.
    destruct (channels r !! listId) as [channel|] eqn:Hlookup; [|done]. cbn.
    rewrite map_size_delete_Some by (by eexists).
    assert (channel ∈ open_channels r) as Hopen
      by (apply (open_registered r Hok); by exists listId).
    pose proof (removeChannel_length channel _ (open_nodup r Hok) Hopen). lia.
  - change (open_channels (unsubscribeAll r)) with
      (map_fold (λ _ channel acc, removeChannel channel acc) (open_channels r) (channels r)).
    pose proof (unsubscribeAll_closes r Hok) as Hclosed. cbn in Hclosed.
    by rewrite Hclosed, map_size_empty.
Qed.

End RegistryCounts.

(** X10. In every state the registry reaches, [getActiveSubscriptionsCount]
    is the number of channels the client holds open: no channel stays open
    without being counted, none is counted without being open. After
    [unsubscribeAll] the count is zero and no channel is open. *)
Theorem count_is_the_number_of_open_channels (os : list Op) :
  let r := steps os empty_registry in
  getActiveSubscriptionsCount r = length (open_channels r)
  ∧ getActiveSubscriptionsCount (unsubscribeAll r) = 0
  ∧ open_channels (unsubscribeAll r) = [].
Proof.
  intros r.
  assert (Hok : registry_ok r) by apply steps_ok, registry_ok_empty.
  split; [|split; [apply map_size_empty|by apply unsubscribeAll_closes]].
  subst r. unfold steps.
  assert (Hgen : ∀ r0, registry_ok r0 →
            getActiveSubscriptionsCount r0 = length (open_channels r0) →
            getActiveSubscriptionsCount (fold_left (λ r o, step o r) os r0)
            = length (open_channels (fold_left (λ r o, step o r) os r0))).
  { clear Hok. induction os as [|o os' IH]; intros r0 Hok0 Hcount; [done|]. cbn.
    apply IH; [by apply step_ok|by apply count_step]. }
  apply Hgen; [apply registry_ok_empty|done].
Qed.

(** X11. [unsubscribeFromListItems] does not count subscribers: however often
    a list was subscribed to, one call closes its channel and forgets it. The
    channels of the other lists are untouched, and for a list that has no
    channel the call changes nothing. *)
Theorem unsubscribe_closes_the_list_only (os : list Op) (listId : string) :
  let r := steps os empty_registry in
  let r' := unsubscribeFromListItems listId r in
  channels r' !! listId = None
  ∧ channels_of listId r' = []
  ∧ (∀ other, other ≠ listId →
       channels r' !! other = channels r !! other
       ∧ channels_of other r' = channels_of other r)
  ∧ (channels r !! listId = None → r' = r).
Proof.
  intros r r'.
  assert (Hok : registry_ok r) by apply steps_ok, registry_ok_empty.
  assert (Hok' : registry_ok r') by by apply unsubscribe_ok.
  assert (Hgone : channels r' !! listId = None).
  { subst r'. unfold unsubscribeFromListItems.
    destruct (channels r !! listId) eqn:Hlookup; [|done]. cbn. apply lookup_delete_eq. }
  split; [done|]. split; [by apply no_channel_none_open|]. split.
  - intros other Hother. subst r'. unfold unsubscribeFromListItems.
    destruct (channels r !! listId) as [channel|] eqn:Hlookup; [|done]. cbn. split.
    + by apply lookup_delete_ne.
    + unfold channels_of. cbn. apply removeChannel_other_topic.
      destruct (registered_topic r Hok _ _ Hlookup) as [-> _].
      intros Heq. by apply topic_inj in Heq.
  - intros Hnone. subst r'. unfold unsubscribeFromListItems. by rewrite Hnone.
Qed.

Lemma unsubscribe_closes_the_list_only_witness :
  "l2" ≠ "l1"
  ∧ channels_of "l2"
      (unsubscribeFromListItems "l1"
         (steps [OpSubscribe "l1"; OpSubscribe "l2"; OpSubscribe "l1"] empty_registry))
    = channels_of "l2"
        (steps [OpSubscribe "l1"; OpSubscribe "l2"; OpSubscribe "l1"] empty_registry).
Proof.
  split; [discriminate|].
  destruct (unsubscribe_closes_the_list_only
              [OpSubscribe "l1"; OpSubscribe "l2"; OpSubscribe "l1"] "l1")
    as (_ & _ & Hother & _).
  apply (Hother "l2"). discriminate.
Defined.

(** X12. Subscribing to a list that has no channel and unsubscribing again
    restores the channels map and the open channels of the client: the pair
    leaves nothing behind. *)
Theorem subscribe_then_unsubscribe_restores (os : list Op) (listId : string) :
  let r := steps os empty_registry in
  channels r !! listId = None →
  let r' := unsubscribeFromListItems listId (subscribeToListItems listId r).1 in
  channels r' = channels r
  ∧ open_channels r' = open_channels r
  ∧ getActiveSubscriptionsCount r' = getActiveSubscriptionsCount r.
Proof.
  intros r Hnone r'.
  assert (Hok : registry_ok r) by apply steps_ok, registry_ok_empty.
  assert (Hchannels : channels r' = channels r ∧ open_channels r' = open_channels r).
  { subst r'. unfold subscribeToListItems. rewrite Hnone. cbn.
    unfold unsubscribeFromListItems. cbn. rewrite lookup_insert_eq. cbn. split.
    - by apply delete_insert_id.
    - unfold removeChannel. rewrite filter_app.
      rewrite filter_cons_False by (intros Hcc; by apply Hcc).
      rewrite filter_nil, app_nil_r. apply removeChannel_absent.
      intros Hopen%(open_ref_lt r _ Hok). cbn in Hopen. lia. }
  destruct Hchannels as [Hc Ho]. split; [done|]. split; [done|].
  unfold getActiveSubscriptionsCount. by rewrite Hc.
Qed.

Lemma subscribe_then_unsubscribe_restores_witness :
  channels (steps [OpSubscribe "l1"] empty_registry) !! "l2" = None
  ∧ open_channels
      (unsubscribeFromListItems "l2"
         (subscribeToListItems "l2" (steps [OpSubscribe "l1"] empty_registry)).1)
    = open_channels (steps [OpSubscribe "l1"] empty_registry).
Proof.
  split; [vm_compute; reflexivity|].
  apply (subscribe_then_unsubscribe_restores [OpSubscribe "l1"] "l2").
  vm_compute; reflexivity.
Defined.

(** * The handlers of the channels *)

Section Handlers.

Import RealtimeHandlers.

Lemma lifecycle_ok (e : Lifecycle) (s : Subscriptions) :
  registry_ok (registry s) → registry_ok (registry (lifecycle e s)).
Proof.
  intros Hok. destruct e as [hook listId|listId]; cbn.
  - unfold mount. destruct (falsy listId); [done|].
    unfold subscribeWith.
    pose proof (subscribe_ok listId _ Hok) as Hsub. unfold subscribeToListItems in *.
    by destruct (channels (registry s) !! listId).
  - unfold unmount. destruct (falsy listId); [done|]. cbn. by apply unsubscribe_ok.
Qed.

Lemma lifecycles_ok (es : list Lifecycle) (s : Subscriptions) :
  registry_ok (registry s) → registry_ok (registry (lifecycles es s)).
Proof.
  unfold lifecycles. revert s. induction es as [|e es IH]; intros s Hok; cbn; [done|].
  apply IH. by apply lifecycle_ok.
Qed.

End Handlers.

(** X13. A channel calls the [onChange] it was created with, and
    [subscribeToListItems] creates a channel only for a list that has none.
    So when two hooks mount on one list, the handler of the first stays the
    one the channel calls and the second mount changes nothing: the handler of
    the second hook is registered nowhere. The cleanup of either hook closes
    the channel, after which the list has no handler at all. Mounting and
    unmounting on one list leave the handlers of the other lists alone. *)
Theorem first_handler_wins
    (es : list RealtimeHandlers.Lifecycle) (listId : string) (first second : nat) :
  listId ≠ "" →
  let s := RealtimeHandlers.lifecycles es RealtimeHandlers.no_subscriptions in
  (channels (RealtimeHandlers.registry s) !! listId = None →
   RealtimeHandlers.handlerOf listId (RealtimeHandlers.mount first listId s) = Some first
   ∧ RealtimeHandlers.mount second listId (RealtimeHandlers.mount first listId s)
     = RealtimeHandlers.mount first listId s)
  ∧ (is_Some (channels (RealtimeHandlers.registry s) !! listId) →
     RealtimeHandlers.mount second listId s = s)
  ∧ (RealtimeHandlers.handlerOf listId (RealtimeHandlers.unmount listId s) = None
     ∧ channels_of listId (RealtimeHandlers.registry (RealtimeHandlers.unmount listId s)) = [])
  ∧ (∀ other, other ≠ listId →
       RealtimeHandlers.handlerOf other (RealtimeHandlers.mount first listId s)
       = RealtimeHandlers.handlerOf other s
       ∧ RealtimeHandlers.handlerOf other (RealtimeHandlers.unmount listId s)
         = RealtimeHandlers.handlerOf other s).
Proof.
  intros HlistId s.
  assert (Hok : registry_ok (RealtimeHandlers.registry s))
    by apply lifecycles_ok, registry_ok_empty.
  unfold RealtimeHandlers.mount, RealtimeHandlers.unmount.
  rewrite !(falsy_false _ HlistId).
  split.
  { intros Hnone. unfold RealtimeHandlers.subscribeWith at 1 3 4. rewrite Hnone. cbn.
    split.
    - unfold RealtimeHandlers.handlerOf, subscribeToListItems. rewrite Hnone. cbn.
      rewrite lookup_insert_eq. cbn. by rewrite lookup_insert_eq.
    - unfold RealtimeHandlers.subscribeWith, subscribeToListItems. rewrite Hnone. cbn.
      by rewrite lookup_insert_eq. }
  split.
  { intros [existing Hsome]. unfold RealtimeHandlers.subscribeWith. by rewrite Hsome. }
  split.
  { split.
    - unfold RealtimeHandlers.handlerOf, RealtimeHandlers.unsubscribe. cbn.
      unfold unsubscribeFromListItems.
      destruct (channels (RealtimeHandlers.registry s) !! listId) eqn:Hlookup; cbn.
      + by rewrite lookup_delete_eq.
      + by rewrite Hlookup.
    - cbn. apply no_channel_none_open; [by apply unsubscribe_ok|].
      unfold unsubscribeFromListItems.
      destruct (channels (RealtimeHandlers.registry s) !! listId) eqn:Hlookup; cbn;
        [apply lookup_delete_eq|done]. }
  intros other Hother. split.
  - unfold RealtimeHandlers.subscribeWith, RealtimeHandlers.handlerOf, subscribeToListItems.
    destruct (channels (RealtimeHandlers.registry s) !! listId) eqn:Hlookup; [done|]. cbn.
    rewrite lookup_insert_ne by done.
    destruct (channels (RealtimeHandlers.registry s) !! other) as [c|] eqn:Hc; [|done]. cbn.
    apply lookup_insert_ne.
    destruct (registered_topic _ Hok _ _ Hc) as [_ Hlt]. lia.
  - unfold RealtimeHandlers.handlerOf, RealtimeHandlers.unsubscribe. cbn.
    unfold unsubscribeFromListItems.
    destruct (channels (RealtimeHandlers.registry s) !! listId) eqn:Hlookup; [|done]. cbn.
    by rewrite lookup_delete_ne.
Qed.

Lemma first_handler_wins_witness :
  "l1" ≠ ""
  ∧ channels (RealtimeHandlers.registry
                (RealtimeHandlers.lifecycles [] RealtimeHandlers.no_subscriptions)) !! "l1"
    = None
  ∧ RealtimeHandlers.handlerOf "l1"
      (RealtimeHandlers.mount 2 "l1"
         (RealtimeHandlers.mount 1 "l1"
            (RealtimeHandlers.lifecycles [] RealtimeHandlers.no_subscriptions)))
    = Some 1.
Proof.
  split; [discriminate|]. split; [vm_compute; reflexivity|].
  destruct (first_handler_wins [] "l1" 1 2) as (Hfresh & _); [discriminate|].
  destruct (Hfresh ltac:(vm_compute; reflexivity)) as [Hfirst ->].
  exact Hfirst.
Defined.

(** X14. What a notification does to the items depends on the row the
    callback of its kind picks: a delete is applied by the id of
    [payload.old] alone, so an old row that carries nothing but the key is
    enough and [payload.new] is not read; an insert or update is the mapped
    [payload.new], whatever [payload.old] holds. *)
Theorem notification_reads_one_row
    (p q : RealtimeHandlers.Payload) (st : HookState) :
  (db_id (RealtimeHandlers.payload_old p) = db_id (RealtimeHandlers.payload_old q) →
   handleRealtimeChange (RealtimeHandlers.changeOf DELETE p) st
   = handleRealtimeChange (RealtimeHandlers.changeOf DELETE q) st)
  ∧ (RealtimeHandlers.payload_new p = RealtimeHandlers.payload_new q →
     handleRealtimeChange (RealtimeHandlers.changeOf INSERT p) st
     = handleRealtimeChange (RealtimeHandlers.changeOf INSERT q) st
     ∧ handleRealtimeChange (RealtimeHandlers.changeOf UPDATE p) st
       = handleRealtimeChange (RealtimeHandlers.changeOf UPDATE q) st)
  ∧ (isPerformingOperation st = false →
     occurrences (db_id (RealtimeHandlers.payload_old p))
                 (items (handleRealtimeChange (RealtimeHandlers.changeOf DELETE p) st)) = 0).
Proof.
  split.
  { intros Hid. unfold handleRealtimeChange, applyChange. cbn. by rewrite Hid. }
  split.
  { intros Hnew. unfold handleRealtimeChange, applyChange. cbn. by rewrite Hnew. }
  intros Hflag. unfold handleRealtimeChange. rewrite Hflag. cbn.
  unfold occurrences.
  destruct (List.filter _ (List.filter _ _)) as [|it rest] eqn:Hfilter; [done|]. exfalso.
  assert (In it (it :: rest)) as Hin by (by left). rewrite <- Hfilter in Hin.
  apply filter_In in Hin as [Hin Hid]. apply filter_In in Hin as [_ Hne].
  by rewrite Hid in Hne.
Qed.

Lemma notification_reads_one_row_witness :
  db_id (RealtimeHandlers.payload_old
           {| RealtimeHandlers.payload_new := row "zz" true jan2;
              RealtimeHandlers.payload_old := row "r1" false jan1 |})
  = db_id (RealtimeHandlers.payload_old
             {| RealtimeHandlers.payload_new := tombstone "r1";
                RealtimeHandlers.payload_old := tombstone "r1" |})
  ∧ handleRealtimeChange
      (RealtimeHandlers.changeOf DELETE
         {| RealtimeHandlers.payload_new := row "zz" true jan2;
            RealtimeHandlers.payload_old := row "r1" false jan1 |})
      (showing [record "r1" false jan1; record "r2" false jan1])
    = handleRealtimeChange
        (RealtimeHandlers.changeOf DELETE
           {| RealtimeHandlers.payload_new := tombstone "r1";
              RealtimeHandlers.payload_old := tombstone "r1" |})
        (showing [record "r1" false jan1; record "r2" false jan1]).
Proof.
  split; [reflexivity|].
  apply (notification_reads_one_row
           {| RealtimeHandlers.payload_new := row "zz" true jan2;
              RealtimeHandlers.payload_old := row "r1" false jan1 |}
           {| RealtimeHandlers.payload_new := tombstone "r1";
              RealtimeHandlers.payload_old := tombstone "r1" |}
           (showing [record "r1" false jan1; record "r2" false jan1])).
  reflexivity.
Defined.

(** * Validation and sanitization of item text *)

Section Text.

Import JSString validation sanitization.

Lemma trimStart_drop (s : jsstring) : ∃ k, trimStart s = drop k s.
Proof.
  induction s as [|c s [k IH]]; [by exists 0|]. cbn.
  destruct (isWhiteSpace c); [by exists (S k)|by exists 0].
Qed.

(** What [trim] keeps is one stretch of the string. *)
Lemma trim_segment (s : jsstring) : ∃ j k, trim s = take j (drop k s).
Proof.
  unfold trim, trimEnd.
  destruct (trimStart_drop s) as [k ->].
  destruct (trimStart_drop (rev (drop k s))) as [i ->].
  exists (length (drop k s) - i), k.
  by rewrite List.skipn_rev, rev_involutive.
Qed.

Lemma trim_sublist (s : jsstring) : sublist (trim s) s.
Proof.
  destruct (trim_segment s) as (j & k & ->).
  etrans; [apply sublist_take|apply sublist_drop].
Qed.

Lemma trim_Forall (P : N → Prop) (s : jsstring) : Forall P s → Forall P (trim s).
Proof.
  intros Hs. destruct (trim_segment s) as (j & k & ->).
  by apply Forall_take, Forall_drop.
Qed.

Lemma trimStart_keeps (s : jsstring) :
  Forall (λ c, isWhiteSpace c = false) s → trimStart s = s.
Proof. intros Hs. destruct Hs as [|c s Hc _]; [done|]. cbn. by rewrite Hc. Qed.

Lemma trim_keeps (s : jsstring) :
  Forall (λ c, isWhiteSpace c = false) s → trim s = s.
Proof.
  intros Hs. unfold trim, trimEnd. rewrite (trimStart_keeps s Hs).
  rewrite trimStart_keeps; [apply rev_involutive|].
  apply Forall_forall. intros c Hc%list_elem_of_In%in_rev%list_elem_of_In.
  by eapply Forall_forall in Hs.
Qed.

Lemma trim_ends (c d : N) (s : jsstring) :
  isWhiteSpace c = false → isWhiteSpace d = false →
  trim (c :: s ++ [d]) = c :: s ++ [d].
Proof.
  intros Hc Hd. unfold trim, trimEnd. cbn [trimStart]. rewrite Hc.
  assert (Hrev : rev (c :: s ++ [d]) = d :: rev (c :: s)).
  { change (c :: s ++ [d]) with ((c :: s) ++ [d]). by rewrite rev_app_distr. }
  rewrite Hrev. cbn [trimStart]. rewrite Hd, <- Hrev. apply rev_involutive.
Qed.

Lemma angle_not_space (c : N) : isAngle c = true → isWhiteSpace c = false.
Proof.
  unfold isAngle. intros [->%N.eqb_eq| ->%N.eqb_eq]%orb_true_iff; reflexivity.
Qed.

Lemma filter_sublist_list {A} (f : A → bool) (l : list A) : sublist (List.filter f l) l.
Proof. apply filter_sublist. Qed.

Lemma no_angle_filter (s : jsstring) :
  Forall (λ c, isAngle c = false) s →
  List.filter (λ c, negb (isAngle c)) s = s.
Proof.
  intros Hs. apply filter_none. intros c Hc%list_elem_of_In.
  eapply Forall_forall in Hs; [|done]. by rewrite Hs.
Qed.

Lemma sanitizeText_no_angle (text : jsstring) :
  Forall (λ c, isAngle c = false) (sanitizeText text).
Proof.
  unfold sanitizeText. apply Forall_take, Forall_forall.
  intros c [_ Hc]%list_elem_of_In%filter_In. by apply negb_true_iff.
Qed.

Lemma sanitizeText_length (text : jsstring) : (length (sanitizeText text) ≤ 500)%nat.
Proof. unfold sanitizeText. rewrite length_take. lia. Qed.

Lemma validateItemText_returns (text : jsstring) :
  validateItemText text = Returned true
  ↔ trim text ≠ [] ∧ (length text ≤ 500)%nat.
Proof.
  unfold validateItemText.
  pose proof (sublist_length _ _ (trim_sublist text)) as Hlen.
  destruct (Nat.eqb_spec (length text) 0) as [Hempty|Hfilled];
    destruct (Nat.eqb_spec (length (trim text)) 0) as [Hblank|Hink];
    destruct (Nat.ltb_spec 500 (length text)) as [Hlong|Hshort];
    cbn [orb]; (split; [try discriminate|intros [Htrim Hmax]]); try lia;
    try (exfalso; apply Htrim; by apply nil_length_inv).
  all: try done.
  all: intros _; split; [intros Hnil; by rewrite Hnil in Hink|lia].
Qed.

End Text.

(** X15. Whatever the input, [sanitizeText] returns at most 500 code units,
    none of them an angle bracket, and adds nothing: the result is the input
    with code units left out, in the same order. *)
Theorem sanitizeText_is_bounded_and_bracket_free (text : JSString.jsstring) :
  (length (sanitization.sanitizeText text) ≤ 500)%nat
  ∧ Forall (λ c, c ≠ 60%N ∧ c ≠ 62%N) (sanitization.sanitizeText text)
  ∧ sublist (sanitization.sanitizeText text) text.
Proof.
  split; [apply sanitizeText_length|]. split.
  - eapply Forall_impl; [apply sanitizeText_no_angle|].
    intros c Hc. unfold JSString.isAngle in Hc. apply orb_false_iff in Hc as [H60 H62].
    split; by apply N.eqb_neq.
  - unfold sanitization.sanitizeText.
    etrans; [apply sublist_take|]. etrans; [apply filter_sublist|apply trim_sublist].
Qed.

(** X16. [validateItemText] returns exactly for the texts that have a code
    unit other than white space and at most 500 code units, white space
    counted. For a text it accepts, [sanitizeText] cuts nothing off: the
    result is the trimmed text without its angle brackets. *)
Theorem validated_text_is_never_truncated (text : JSString.jsstring) :
  (validation.validateItemText text = validation.Returned true
   ↔ JSString.trim text ≠ [] ∧ (length text ≤ 500)%nat)
  ∧ (validation.validateItemText text = validation.Returned true →
     sanitization.sanitizeText text
     = List.filter (λ c, negb (JSString.isAngle c)) (JSString.trim text)).
Proof.
  split; [apply validateItemText_returns|].
  intros [_ Hlen]%validateItemText_returns. unfold sanitization.sanitizeText. apply take_ge.
  etrans; [apply sublist_length, filter_sublist|].
  etrans; [apply sublist_length, trim_sublist|done].
Qed.

Lemma validated_text_is_never_truncated_witness :
  validation.validateItemText (JSString.units "  <b>Milk</b> ") = validation.Returned true
  ∧ sanitization.sanitizeText (JSString.units "  <b>Milk</b> ") = JSString.units "bMilk/b".
Proof.
  split; [reflexivity|].
  rewrite (proj2 (validated_text_is_never_truncated (JSString.units "  <b>Milk</b> ")) eq_refl).
  reflexivity.
Defined.

(** X17. [sanitizeText] is not idempotent. What a second [sanitizeText] does
    to a sanitized text is to trim it, nothing else, so sanitizing twice is
    sanitizing once exactly when the sanitized text has no white space at its
    ends. It can have: removing a bracket uncovers the white space that
    followed it. For every text [body] of one to 498 code units, none of them
    white space or an angle bracket, sanitizing [<], a space and [body] gives
    the space and [body], and sanitizing that gives [body]: the second pass
    changes the result of the first. *)
Theorem sanitizeText_is_not_idempotent (text body : JSString.jsstring) :
  sanitization.sanitizeText (sanitization.sanitizeText text)
  = JSString.trim (sanitization.sanitizeText text)
  ∧ (sanitization.sanitizeText (sanitization.sanitizeText text)
     = sanitization.sanitizeText text
     ↔ JSString.trim (sanitization.sanitizeText text) = sanitization.sanitizeText text)
  ∧ (body ≠ [] →
     (length body ≤ 498)%nat →
     Forall (λ c, JSString.isWhiteSpace c = false ∧ JSString.isAngle c = false) body →
     sanitization.sanitizeText (60 :: 32 :: body)%N = (32 :: body)%N
     ∧ sanitization.sanitizeText (32 :: body)%N = body
     ∧ sanitization.sanitizeText (sanitization.sanitizeText (60 :: 32 :: body)%N)
       ≠ sanitization.sanitizeText (60 :: 32 :: body)%N).
Proof.
  assert (Hagain : sanitization.sanitizeText (sanitization.sanitizeText text)
                   = JSString.trim (sanitization.sanitizeText text)).
  { unfold sanitization.sanitizeText at 1.
    rewrite no_angle_filter by apply trim_Forall, sanitizeText_no_angle.
    apply take_ge. etrans; [apply sublist_length, trim_sublist|apply sanitizeText_length]. }
  split; [done|]. split; [by rewrite Hagain|].
  intros Hfilled Hlen Hbody.
  assert (Hink : Forall (λ c, JSString.isWhiteSpace c = false) body).
  { eapply Forall_impl; [exact Hbody|]. by intros c [Hc _]. }
  assert (Hplain : Forall (λ c, JSString.isAngle c = false) body).
  { eapply Forall_impl; [exact Hbody|]. by intros c [_ Hc]. }
  assert (Hfirst : sanitization.sanitizeText (60 :: 32 :: body)%N = (32 :: body)%N).
  { unfold sanitization.sanitizeText.
    assert (JSString.trim (60 :: 32 :: body)%N = (60 :: 32 :: body)%N) as ->.
    { destruct body as [|d init _] using rev_ind; [done|].
      apply Forall_app in Hink as [_ Hd]. inversion Hd as [|? ? Hd' _]; subst.
      apply (trim_ends 60%N d (32%N :: init)); [reflexivity|exact Hd']. }
    cbn [List.filter JSString.isAngle N.eqb Pos.eqb orb negb].
    rewrite (no_angle_filter body Hplain). apply take_ge. cbn [length]. lia. }
  assert (Hsecond : sanitization.sanitizeText (32 :: body)%N = body).
  { unfold sanitization.sanitizeText.
    assert (JSString.trim (32 :: body)%N = body) as ->.
    { change (JSString.trim (32 :: body)%N) with (JSString.trim body).
      by apply trim_keeps. }
    rewrite (no_angle_filter body Hplain). apply take_ge. lia. }
  split; [done|]. split; [done|].
  rewrite Hfirst, Hsecond. intros Hsame.
  apply (f_equal length) in Hsame. cbn [length] in Hsame. lia.
Qed.

Lemma sanitizeText_is_not_idempotent_witness :
  sanitization.sanitizeText (JSString.units "< a") = JSString.units " a"
  ∧ sanitization.sanitizeText (sanitization.sanitizeText (JSString.units "< a"))
    ≠ sanitization.sanitizeText (JSString.units "< a").
Proof.
  destruct (sanitizeText_is_not_idempotent (JSString.units "< a >") (JSString.units "a"))
    as (_ & _ & Hbody).
  destruct Hbody as (Hfirst & _ & Hdiffer).
  - discriminate.
  - cbn. lia.
  - repeat constructor.
  - split; [exact Hfirst|exact Hdiffer].
Defined.

(** X18. Validation does not see what sanitization removes: a text of one to
    500 angle brackets passes [validateItemText], and [sanitizeText] turns it
    into the empty string. Validating and then sanitizing, as [createItem]
    does, can therefore store an empty text. *)
Theorem validated_text_can_sanitize_to_nothing (text : JSString.jsstring) :
  text ≠ [] →
  (length text ≤ 500)%nat →
  Forall (λ c, c = 60%N ∨ c = 62%N) text →
  validation.validateItemText text = validation.Returned true
  ∧ sanitization.sanitizeText text = [].
Proof.
  intros Hne Hlen Hangle.
  assert (Hall : Forall (λ c, JSString.isAngle c = true) text).
  { eapply Forall_impl; [exact Hangle|]. by intros c [-> | ->]. }
  assert (Htrim : JSString.trim text = text).
  { apply trim_keeps. eapply Forall_impl; [exact Hall|]. apply angle_not_space. }
  split.
  - apply validateItemText_returns. split; [by rewrite Htrim|done].
  - unfold sanitization.sanitizeText. rewrite Htrim.
    assert (List.filter (λ c, negb (JSString.isAngle c)) text = []) as ->; [|done].
    destruct (List.filter _ text) as [|c rest] eqn:Hfilter; [done|]. exfalso.
    assert (In c (c :: rest)) as Hin by (by left). rewrite <- Hfilter in Hin.
    apply filter_In in Hin as [Hc Hnot]. apply list_elem_of_In in Hc.
    eapply Forall_forall in Hall; [|done]. by rewrite Hall in Hnot.
Qed.

Lemma validated_text_can_sanitize_to_nothing_witness :
  JSString.units "<>" ≠ []
  ∧ validation.validateItemText (JSString.units "<>") = validation.Returned true
  ∧ sanitization.sanitizeText (JSString.units "<>") = [].
Proof.
  split; [discriminate|].
  apply (validated_text_can_sanitize_to_nothing (JSString.units "<>")).
  - discriminate.
  - cbn. lia.
  - constructor; [by left|]. constructor; [by right|]. constructor.
Defined.

(** * The logger *)

Section LoggerSanitize.

Import Logger.

Variable toLowerCase : string → string.

#[local] Arguments isSensitive : simpl never.

(** What the loop of [sanitize] assigns, key by key. *)
#[local] Abbreviation assigned entries :=
  (map (λ entry : string * LogData,
          (entry.1,
           if isSensitive toLowerCase entry.1 then Prim (Str "[REDACTED]")
           else sanitize toLowerCase entry.2))
       entries).

(** Induction on logged data, with the hypothesis for every element and the
    value of every entry. *)
Lemma LogData_nested_ind (P : LogData → Prop) :
  (∀ p, P (Prim p)) →
  (∀ elements, Forall P elements → P (Arr elements)) →
  (∀ prototype entries, Forall (λ entry, P entry.2) entries → P (Obj prototype entries)) →
  ∀ data, P data.
Proof.
  intros Hprim Harr Hobj. fix IH 1. intros [p|elements|prototype entries].
  - apply Hprim.
  - apply Harr. induction elements as [|x elements IHl]; constructor; [apply IH|exact IHl].
  - apply Hobj. induction entries as [|[key value] entries IHl]; constructor;
      [apply IH|exact IHl].
Qed.

Lemma sanitize_value (value : LogData) :
  match value with
  | Prim p => Prim p
  | _ => sanitize toLowerCase value
  end = sanitize toLowerCase value.
Proof. by destruct value. Qed.

Lemma sanitize_obj (prototype : option LogData) (entries : list (string * LogData)) :
  sanitize toLowerCase (Obj prototype entries)
  = Obj (prototypeAfter (assigned entries)) (entriesAfter (assigned entries)).
Proof.
  cbn [sanitize].
  assert (Hmap : ∀ l : list (string * LogData),
            map (λ entry,
                   let '(key, value) := entry in
                   (key,
                    if isSensitive toLowerCase key then Prim (Str "[REDACTED]")
                    else match value with
                         | Prim p => Prim p
                         | _ => sanitize toLowerCase value
                         end)) l
            = assigned l).
  { intros l. apply map_ext. intros [key value]. cbn [fst snd]. by rewrite sanitize_value. }
  by rewrite Hmap.
Qed.

Lemma fold_proto_skip (l : list (string * LogData)) (current : option LogData) :
  Forall (λ entry, isProto entry.1 = false) l →
  fold_left (λ current entry, if isProto entry.1 then assignProto entry.2 current else current)
            l current
  = current.
Proof.
  intros Hl. revert current. induction Hl as [|entry l Hentry _ IH]; intros current; [done|].
  cbn [fold_left]. by rewrite Hentry.
Qed.

Lemma entriesAfter_skip (l : list (string * LogData)) :
  Forall (λ entry, isProto entry.1 = false) l → entriesAfter l = l.
Proof.
  intros Hl. unfold entriesAfter. apply filter_none. intros entry Hin%list_elem_of_In.
  eapply Forall_forall in Hl; [|done]. by rewrite Hl.
Qed.

Lemma assigned_keys (entries : list (string * LogData)) (P : string → Prop) :
  Forall (λ entry, P entry.1) entries → Forall (λ entry, P entry.1) (assigned entries).
Proof. intros Hl. induction Hl; constructor; done. Qed.

Lemma fold_proto_Forall (Q : LogData → Prop) (l : list (string * LogData))
    (current : option LogData) :
  Forall (λ entry, Q entry.2) l →
  option_Forall Q current →
  option_Forall Q
    (fold_left (λ current entry, if isProto entry.1 then assignProto entry.2 current else current)
               l current).
Proof.
  intros Hl. revert current.
  induction Hl as [|[key value] l Hvalue _ IH]; intros current Hcurrent; [done|].
  cbn [fold_left fst snd]. apply IH. destruct (isProto key); [|done].
  cbn [fst snd] in Hvalue.
  destruct value as [[| | | |]| |]; cbn [assignProto]; try done; by constructor.
Qed.

Lemma sanitize_redacted (data : LogData) :
  Redacted toLowerCase (sanitize toLowerCase data).
Proof.
  induction data as [p|elements IH|prototype entries IH] using LogData_nested_ind.
  - constructor.
  - cbn. constructor. induction IH; constructor; done.
  - rewrite sanitize_obj.
    assert (Hall : Forall (λ entry,
                     (isSensitive toLowerCase entry.1 = true
                      ∧ entry.2 = Prim (Str "[REDACTED]"))
                     ∨ (isSensitive toLowerCase entry.1 = false
                        ∧ Redacted toLowerCase entry.2))
                     (assigned entries)).
    { induction IH as [|[key value] entries Hvalue _ IHl]; constructor; [|done].
      cbn [fst snd] in *. destruct (isSensitive toLowerCase key) eqn:Hkey; [by left|by right]. }
    constructor.
    + apply fold_proto_Forall; [|constructor].
      eapply Forall_impl; [exact Hall|].
      intros entry [[_ ->]|[_ Hentry]]; [constructor|done].
    + unfold entriesAfter. apply Forall_forall.
      intros entry [Hin _]%list_elem_of_In%filter_In.
      eapply Forall_forall in Hall; [done|by apply list_elem_of_In].
Qed.

Lemma sanitize_keys (entries : list (string * LogData)) :
  (entriesAfter (assigned entries)).*1
  = List.filter (λ key, negb (String.eqb key "__proto__")) entries.*1.
Proof.
  unfold entriesAfter, isProto.
  induction entries as [|[key value] entries IH]; [done|].
  cbn [map fmap list_fmap List.filter fst snd].
  destruct (String.eqb key "__proto__"); cbn [negb]; [exact IH|].
  cbn [fmap list_fmap fst]. f_equal. exact IH.
Qed.

Lemma sanitize_prototype (before after : list (string * LogData)) (value : LogData) :
  Forall (λ entry, entry.1 ≠ "__proto__") before →
  Forall (λ entry, entry.1 ≠ "__proto__") after →
  prototypeAfter (assigned (before ++ ("__proto__", value) :: after))
  = if isSensitive toLowerCase "__proto__" then None
    else match value with
         | Prim Null => Some (Prim Null)
         | Prim _ => None
         | _ => Some (sanitize toLowerCase value)
         end.
Proof.
  intros Hbefore Hafter.
  assert (Hfree : ∀ l : list (string * LogData),
            Forall (λ entry, entry.1 ≠ "__proto__") l →
            Forall (λ entry, isProto entry.1 = false) (assigned l)).
  { intros l Hl. apply (assigned_keys l (λ key, isProto key = false)).
    eapply Forall_impl; [exact Hl|]. intros entry Hentry. by apply String.eqb_neq. }
  unfold prototypeAfter. rewrite map_app, fold_left_app.
  rewrite (fold_proto_skip _ _ (Hfree _ Hbefore)).
  cbn [map fold_left fst snd]. rewrite (fold_proto_skip _ _ (Hfree _ Hafter)).
  change (isProto "__proto__") with true. cbn match.
  destruct (isSensitive toLowerCase "__proto__"); [done|].
  by destruct value as [[| | | |]| |].
Qed.

Lemma sanitize_ordinary (prototype : option LogData) (entries : list (string * LogData)) :
  Forall (λ entry, entry.1 ≠ "__proto__") entries →
  sanitize toLowerCase (Obj prototype entries) = Obj None (assigned entries).
Proof.
  intros Hfree. rewrite sanitize_obj.
  assert (Hassigned : Forall (λ entry, isProto entry.1 = false) (assigned entries)).
  { apply (assigned_keys entries (λ key, isProto key = false)).
    eapply Forall_impl; [exact Hfree|]. intros entry Hentry. by apply String.eqb_neq. }
  unfold prototypeAfter. by rewrite fold_proto_skip, entriesAfter_skip.
Qed.

Lemma sanitize_twice (data : LogData) :
  Ordinary data →
  sanitize toLowerCase (sanitize toLowerCase data) = sanitize toLowerCase data.
Proof.
  induction data as [p|elements IH|prototype entries IH] using LogData_nested_ind;
    intros Hdata; inversion_clear Hdata as [|? Hall|? ? Hall].
  - done.
  - cbn. f_equal. induction IH as [|x elements Hx _ IHl]; cbn; [done|].
    apply Forall_cons in Hall as [Hox Hall]. f_equal; [by apply Hx|by apply IHl].
  - assert (Hfree : Forall (λ entry : string * LogData, entry.1 ≠ "__proto__") entries).
    { eapply Forall_impl; [exact Hall|]. intros entry [Hentry _]. by apply String.eqb_neq. }
    rewrite (sanitize_ordinary _ _ Hfree).
    rewrite sanitize_ordinary by by apply (assigned_keys entries (λ key, key ≠ "__proto__")).
    f_equal. clear Hfree.
    induction IH as [|[key value] entries Hvalue _ IHl]; [done|].
    apply Forall_cons in Hall as [[_ Hov] Hall]. cbn [map fst snd] in *.
    f_equal; [|by apply IHl]. f_equal.
    destruct (isSensitive toLowerCase key); [done|by apply Hvalue].
Qed.

Lemma sanitize_plain (data : LogData) :
  Plain toLowerCase data → sanitize toLowerCase data = data.
Proof.
  induction data as [p|elements IH|prototype entries IH] using LogData_nested_ind;
    intros Hplain; inversion_clear Hplain as [|? Hall|? Hall].
  - done.
  - cbn. f_equal. induction IH as [|x elements Hx _ IHl]; cbn; [done|].
    apply Forall_cons in Hall as [Hpx Hall]. f_equal; [by apply Hx|by apply IHl].
  - assert (Hfree : Forall (λ entry : string * LogData, entry.1 ≠ "__proto__") entries).
    { eapply Forall_impl; [exact Hall|]. intros entry [Hentry _]. by apply String.eqb_neq. }
    rewrite (sanitize_ordinary _ _ Hfree). f_equal. clear Hfree.
    induction IH as [|[key value] entries Hvalue _ IHl]; [done|].
    apply Forall_cons in Hall as [(_ & Hkey & Hpv) Hall]. cbn [map fst snd] in *.
    rewrite Hkey. f_equal; [f_equal; by apply Hvalue|by apply IHl].
Qed.

End LoggerSanitize.

(** X19. Whatever is logged, in what [Logger.sanitize] returns every value
    stored under a key that contains a sensitive word, at any depth of
    objects, arrays and prototypes, is the placeholder [[REDACTED]]. An array
    keeps its length. An object keeps its keys in their order, except the key
    [__proto__], which the result never has: assigning to it sets the
    prototype of the result instead, to the sanitized value when the value is
    an object or an array, to [null] when it is [null], and not at all when
    it is another primitive or the key counts as sensitive; without that key
    the result is a plain object. Sanitizing what was sanitized changes
    nothing when no key at any depth is [__proto__]. *)
Theorem logger_redacts_at_every_depth (toLowerCase : string → string) (data : Logger.LogData) :
  Logger.Redacted toLowerCase (Logger.sanitize toLowerCase data)
  ∧ (Logger.Ordinary data →
     Logger.sanitize toLowerCase (Logger.sanitize toLowerCase data)
     = Logger.sanitize toLowerCase data)
  ∧ match data, Logger.sanitize toLowerCase data with
    | Logger.Prim p, Logger.Prim p' => p' = p
    | Logger.Arr elements, Logger.Arr elements' => length elements' = length elements
    | Logger.Obj _ entries, Logger.Obj prototype' entries' =>
        entries'.*1 = List.filter (λ key, negb (String.eqb key "__proto__")) entries.*1
        ∧ Forall (λ entry, entry.1 ≠ "__proto__") entries'
        ∧ (Forall (λ entry, entry.1 ≠ "__proto__") entries → prototype' = None)
        ∧ (∀ before value after,
             entries = before ++ ("__proto__", value) :: after →
             Forall (λ entry, entry.1 ≠ "__proto__") before →
             Forall (λ entry, entry.1 ≠ "__proto__") after →
             prototype'
             = if Logger.isSensitive toLowerCase "__proto__" then None
               else match value with
                    | Logger.Prim Logger.Null => Some (Logger.Prim Logger.Null)
                    | Logger.Prim _ => None
                    | _ => Some (Logger.sanitize toLowerCase value)
                    end)
    | _, _ => False
    end.
Proof.
  split; [apply sanitize_redacted|]. split; [apply sanitize_twice|].
  destruct data as [p|elements|prototype entries].
  - done.
  - cbn. by rewrite length_map.
  - rewrite sanitize_obj. split; [apply sanitize_keys|]. split.
    { unfold Logger.entriesAfter. apply Forall_forall.
      intros entry [_ Hkey]%list_elem_of_In%filter_In.
      apply negb_true_iff in Hkey. by apply String.eqb_neq. }
    split.
    + intros Hfree.
      pose proof (sanitize_ordinary toLowerCase prototype entries Hfree) as Hplain.
      rewrite sanitize_obj in Hplain. by injection Hplain.
    + intros before value after -> Hbefore Hafter. by apply sanitize_prototype.
Qed.

Lemma logger_redacts_at_every_depth_witness :
  Logger.sanitize Logger.lowerAscii
    (Logger.Obj None
       [("__proto__", Logger.Obj None [("x", Logger.Prim (Logger.Number 1))]);
        ("a", Logger.Prim (Logger.Str "b"));
        ("accessToken", Logger.Prim (Logger.Str "abc"));
        ("user", Logger.Obj None [("Email", Logger.Prim (Logger.Str "a@b.c"))])])
  = Logger.Obj (Some (Logger.Obj None [("x", Logger.Prim (Logger.Number 1))]))
      [("a", Logger.Prim (Logger.Str "b"));
       ("accessToken", Logger.Prim (Logger.Str "[REDACTED]"));
       ("user", Logger.Obj None [("Email", Logger.Prim (Logger.Str "[REDACTED]"))])]
  ∧ Logger.sanitize Logger.lowerAscii
      (Logger.sanitize Logger.lowerAscii
         (Logger.Arr [Logger.Obj None [("token", Logger.Prim (Logger.Number 7))]]))
    = Logger.sanitize Logger.lowerAscii
        (Logger.Arr [Logger.Obj None [("token", Logger.Prim (Logger.Number 7))]]).
Proof.
  split; [reflexivity|].
  apply (logger_redacts_at_every_depth Logger.lowerAscii
           (Logger.Arr [Logger.Obj None [("token", Logger.Prim (Logger.Number 7))]])).
  constructor. constructor; [|constructor].
  constructor. constructor; [|constructor].
  split; [reflexivity|constructor].
Defined.

(** X20. [Logger.sanitize] looks at keys only: plain objects and arrays in
    which no key contains a sensitive word or is [__proto__] come back as they
    are, whatever their strings hold. *)
Theorem logger_keeps_data_without_sensitive_keys
    (toLowerCase : string → string) (data : Logger.LogData) :
  Logger.Plain toLowerCase data →
  Logger.sanitize toLowerCase data = data.
Proof. apply sanitize_plain. Qed.

Lemma logger_keeps_data_without_sensitive_keys_witness :
  Logger.Plain Logger.lowerAscii
    (Logger.Obj None [("Message", Logger.Prim (Logger.Str "the password is hunter2"));
                      ("ids", Logger.Arr [Logger.Prim (Logger.Number 7)])])
  ∧ Logger.sanitize Logger.lowerAscii
      (Logger.Obj None [("Message", Logger.Prim (Logger.Str "the password is hunter2"));
                        ("ids", Logger.Arr [Logger.Prim (Logger.Number 7)])])
    = Logger.Obj None [("Message", Logger.Prim (Logger.Str "the password is hunter2"));
                       ("ids", Logger.Arr [Logger.Prim (Logger.Number 7)])].
Proof.
  assert (Hplain : Logger.Plain Logger.lowerAscii
            (Logger.Obj None
               [("Message", Logger.Prim (Logger.Str "the password is hunter2"));
                ("ids", Logger.Arr [Logger.Prim (Logger.Number 7)])])).
  { constructor. constructor; [repeat split; constructor|].
    constructor; [|constructor]. repeat split. constructor. constructor; constructor. }
  split; [exact Hplain|].
  exact (logger_keeps_data_without_sensitive_keys Logger.lowerAscii _ Hplain).
Defined.
